(** * daynight: the physics, collision and state-update engine of daynight.py

    The program computes on Python floats (IEEE binary64), on pygame's
    [Vector2] (a pair of doubles) and on pygame's [Rect] (four C ints).
    The embedding below is written once, over an interface [Arith] of the
    arithmetic the source uses, and is run on two instances:

    - [float_arith]: the kernel's binary64 numbers, on which every
      definition evaluates exactly as the program does;
    - [real_arith]: the real numbers, the exact arithmetic that the
      rounding of binary64 approximates.

    The grid is the shared list of rows that [run_ball] mutates in place;
    it is threaded through a small state-and-exception monad [Exec]. *)

From Stdlib Require Import ZArith Floats Reals Lra Lia Bool.
From stdpp Require Import base option list.

Set Default Proof Using "Type".

(** ** The arithmetic of the source *)

Class Arith (num : Type) := {
  num_of_int : Z -> num;          (* an int used where a float is expected *)
  num_to_int : num -> Z;          (* a float truncated to a C int by Rect *)
  num_add : num -> num -> num;
  num_sub : num -> num -> num;
  num_mul : num -> num -> num;
  num_div : num -> num -> num;
  num_sqrt : num -> num;          (* math.sqrt *)
  num_lt : num -> num -> bool;    (* a < b *)
  num_le : num -> num -> bool     (* a <= b *)
}.

Declare Scope num_scope.
Delimit Scope num_scope with num.
Notation "a + b" := (num_add a b) : num_scope.
Notation "a - b" := (num_sub a b) : num_scope.
Notation "a * b" := (num_mul a b) : num_scope.
Notation "a / b" := (num_div a b) : num_scope.
Notation "a <? b" := (num_lt a b) : num_scope.
Notation "a <=? b" := (num_le a b) : num_scope.
Notation "a >? b" := (num_lt b a) (only parsing) : num_scope.
Notation "# z" := (num_of_int z) (at level 1, format "# z") : num_scope.

(** Binary64.  [float_of_int] is exact on the C ints a [Rect] holds. *)
Definition float_of_int (z : Z) : float :=
  match z with
  | Z0 => PrimFloat.zero
  | Zpos _ => PrimFloat.of_uint63 (Uint63.of_Z z)
  | Zneg p => PrimFloat.opp (PrimFloat.of_uint63 (Uint63.of_Z (Zpos p)))
  end.

Definition float_to_int (f : float) : Z :=
  match Prim2SF f with
  | S754_finite s m e =>
      let a := if (0 <=? e)%Z then (Zpos m * 2 ^ e)%Z
               else (Zpos m / 2 ^ (- e))%Z in
      if s then (- a)%Z else a
  | _ => 0%Z
  end.

#[export] Instance float_arith : Arith float := {|
  num_of_int := float_of_int;
  num_to_int := float_to_int;
  num_add := PrimFloat.add;
  num_sub := PrimFloat.sub;
  num_mul := PrimFloat.mul;
  num_div := PrimFloat.div;
  num_sqrt := PrimFloat.sqrt;
  num_lt := PrimFloat.ltb;
  num_le := PrimFloat.leb
|}.

(** The reals. *)
Definition Rltb (a b : R) : bool := if Rlt_dec a b then true else false.
Definition Rleb (a b : R) : bool := if Rle_dec a b then true else false.
Definition Rtrunc (r : R) : Z :=
  if Rlt_dec r 0 then (- Int_part (- r))%Z else Int_part r.

#[export] Instance real_arith : Arith R := {|
  num_of_int := IZR;
  num_to_int := Rtrunc;
  num_add := Rplus;
  num_sub := Rminus;
  num_mul := Rmult;
  num_div := Rdiv;
  num_sqrt := sqrt;
  num_lt := Rltb;
  num_le := Rleb
|}.

(** ** pygame's value types *)

(** Modelled from the spec: pygame's [Vector2] (section 3 and 4.1), an
    ordered pair of floating-point coordinates. *)
Record Vector2 (num : Type) := vec { vx : num; vy : num }.
Arguments vec {num} _ _.
Arguments vx {num} _.
Arguments vy {num} _.

(** Modelled from the spec: pygame's [Rect] (section 3), an axis-aligned box
    given by left, top, width and height, held as integers. *)
Record Rect := mkRect { rect_x : Z; rect_y : Z; rect_w : Z; rect_h : Z }.

Definition rect_left (r : Rect) : Z := rect_x r.
Definition rect_top (r : Rect) : Z := rect_y r.
Definition rect_right (r : Rect) : Z := (rect_x r + rect_w r)%Z.
Definition rect_bottom (r : Rect) : Z := (rect_y r + rect_h r)%Z.

(** A cell is [(rect, state)]; the state is [true] for day. *)
Abbreviation Cell := (Rect * bool)%type (only parsing).
Abbreviation Grid := (list (list (Rect * bool))) (only parsing).

(** [grid[j][i]]: [None] stands for Python's IndexError. *)
Definition cell_at (grid : Grid) (j i : nat) : option Cell :=
  match grid !! j with
  | Some row => row !! i
  | None => None
  end.

(** [grid[j][i] = c], used by the source only after [grid[j][i]] was read. *)
Definition set_cell (grid : Grid) (j i : nat) (c : Cell) : Grid :=
  alter (fun row => <[i := c]> row) j grid.

(** ** The grid as shared mutable state

    [run_ball] reads and writes the caller's grid.  A computation takes the
    grid and returns it with [Some] result, or with [None] when an exception
    (IndexError on a grid that is too small) stopped it. *)

Definition Exec (T : Type) : Type := Grid -> option T * Grid.

Definition ret {T} (t : T) : Exec T := fun g => (Some t, g).

Definition bind {T U} (m : Exec T) (k : T -> Exec U) : Exec U :=
  fun g =>
    match m g with
    | (Some t, g') => k t g'
    | (None, g') => (None, g')
    end.

Notation "'let*' x := m 'in' k" := (bind m (fun x => k))
  (at level 10, x name, m at level 100, k at level 200).

Definition get_cell (j i : nat) : Exec Cell :=
  fun g => (cell_at g j i, g).

Definition put_cell (j i : nat) (c : Cell) : Exec unit :=
  fun g => (Some tt, set_cell g j i c).

(** ** Constants of the source *)

Definition GRIDX : Z := 10.
Definition GRIDY : Z := 10.

Section Engine.
Context {num : Type} {A : Arith num}.
Local Open Scope num_scope.

Definition RECTSIZE : num := #25.
Definition BALLSIZE : num := #10.
Definition BALLSPEED : num := #1 / #2.

(** *** Vector2 operations (spec 4.1) *)

(** Modelled from the spec: [a + b] on vectors. *)
Definition vadd (a b : Vector2 num) : Vector2 num :=
  vec (vx a + vx b) (vy a + vy b).

(** Modelled from the spec: [v * s], a vector scaled by a scalar. *)
Definition vscale (v : Vector2 num) (s : num) : Vector2 num :=
  vec (vx v * s) (vy v * s).

(** Modelled from the spec: [v / s]. *)
Definition vdiv (v : Vector2 num) (s : num) : Vector2 num :=
  vec (vx v / s) (vy v / s).

Definition dot (a b : Vector2 num) : num := vx a * vx b + vy a * vy b.

(** Modelled from the spec: the Euclidean length of a vector. *)
Definition vlength (v : Vector2 num) : num := num_sqrt (dot v v).

(** Modelled from the spec: [v.normalize()].  pygame raises on the zero
    vector; every call site of the source passes a non-zero constant. *)
Definition normalize (v : Vector2 num) : Vector2 num := vdiv v (vlength v).

(** Modelled from the spec: [v.reflect(normal)] is
    [v - 2*dot(v,normal)*normal]. *)
Definition reflect (v normal : Vector2 num) : Vector2 num :=
  let d := dot v normal in
  vec (vx v - #2 * vx normal * d) (vy v - #2 * vy normal * d).

(** *** advance_point (lines 71-77) *)

Definition advance_point (point direction : Vector2 num) (speed dt : num)
  : Vector2 num :=
  vadd point (vscale (vscale direction speed) dt).

(** *** ball_rect_collision (lines 80-122) *)

(** The point [(test_x, test_y)] of lines 86-103. *)
Definition test_point (center : Vector2 num) (rect : Rect) : Vector2 num :=
  let test_x :=
    if vx center <? #(rect_left rect) then #(rect_left rect)
    else if vx center >? #(rect_right rect) then #(rect_right rect)
    else vx center in
  let test_y :=
    if vy center <? #(rect_top rect) then #(rect_top rect)
    else if vy center >? #(rect_bottom rect) then #(rect_bottom rect)
    else vy center in
  vec test_x test_y.

(** [xnormal] of lines 89-95. *)
Definition xnormal_of (center : Vector2 num) (rect : Rect)
  : option (Vector2 num) :=
  if vx center <? #(rect_left rect) then Some (vec #(-1) #0)
  else if vx center >? #(rect_right rect) then Some (vec #1 #0)
  else None.

(** [ynormal] of lines 97-103. *)
Definition ynormal_of (center : Vector2 num) (rect : Rect)
  : option (Vector2 num) :=
  if vy center <? #(rect_top rect) then Some (vec #1 #0)
  else if vy center >? #(rect_bottom rect) then Some (vec #(-1) #0)
  else None.

(** [distance] of lines 105-107. *)
Definition distance (center test : Vector2 num) : num :=
  let dist_x := vx center - vx test in
  let dist_y := vy center - vy test in
  num_sqrt (dist_x * dist_x + dist_y * dist_y).

Definition in_hspan (center : Vector2 num) (rect : Rect) : bool :=
  (#(rect_left rect) <=? vx center) && (vx center <=? #(rect_right rect)).

Definition in_vspan (center : Vector2 num) (rect : Rect) : bool :=
  (#(rect_top rect) <=? vy center) && (vy center <=? #(rect_bottom rect)).

Definition ball_rect_collision (center : Vector2 num) (radius : num)
  (rect : Rect) : option (Vector2 num) :=
  let xnormal := xnormal_of center rect in
  let ynormal := ynormal_of center rect in
  let distance := distance center (test_point center rect) in
  if distance >? radius then None
  else
    let normal :=
      if in_hspan center rect then ynormal
      else if in_vspan center rect then xnormal
      else None in
    match normal with
    | None => Some (vec #1 #0)          (* Fallback *)
    | Some n => Some n
    end.

(** *** run_ball (lines 125-161) *)

(** The locals [(new_center, new_direction)] that the loops update. *)
Definition Locals : Type := Vector2 num * Vector2 num.

(** Lines 151-159 for one cell [(j, i)] and the rest [cols] of row [j]:
    [continue] goes on with [cols], [break] leaves the row. *)
Fixpoint scan_row (center : Vector2 num) (ball_type : bool) (dt : num)
  (j : nat) (cols : list nat) (loc : Locals) : Exec Locals :=
  match cols with
  | [] => ret loc
  | i :: cols' =>
      let* c := get_cell j i in
      let '(rect, cell_type) := c in
      if negb (eqb cell_type ball_type) then
        scan_row center ball_type dt j cols' loc              (* continue *)
      else
        match ball_rect_collision center BALLSIZE rect with
        | Some normal =>
            let new_direction := reflect (snd loc) normal in
            let new_center :=
              advance_point center new_direction BALLSPEED dt in
            let* _u := put_cell j i (rect, negb cell_type) in
            ret (new_center, new_direction)                   (* break *)
        | None => scan_row center ball_type dt j cols' loc
        end
  end.

(** Lines 149-159: the loop over the rows; the [break] of line 159 leaves
    only the loop over [i], so the next row is scanned all the same. *)
Fixpoint scan_rows (center : Vector2 num) (ball_type : bool) (dt : num)
  (rows : list nat) (loc : Locals) : Exec Locals :=
  match rows with
  | [] => ret loc
  | j :: rows' =>
      let* loc' :=
        scan_row center ball_type dt j (seq 0 (Z.to_nat GRIDX)) loc in
      scan_rows center ball_type dt rows' loc'
  end.

Definition scan_grid (center : Vector2 num) (ball_type : bool) (dt : num)
  (loc : Locals) : Exec Locals :=
  scan_rows center ball_type dt (seq 0 (Z.to_nat GRIDY)) loc.

(** [normal] of lines 135-143, from the tentative [new_center]. *)
Definition boundary_normal (new_center : Vector2 num)
  : option (Vector2 num) :=
  if vx new_center - BALLSIZE <? #0 then
    Some (normalize (vec #1 #0))
  else if vy new_center - BALLSIZE <? #0 then
    Some (normalize (vec #0 #(-1)))
  else if vx new_center + BALLSIZE >? RECTSIZE * #GRIDX then
    Some (normalize (vec #(-1) #0))
  else if vy new_center + BALLSIZE >? RECTSIZE * #GRIDY then
    Some (normalize (vec #0 #1))
  else None.

(** The value is [(result, grid)]: the returned pair, or [None] for an
    exception, and the grid as the call leaves it. *)
Definition run_ball (center direction : Vector2 num) (grid : Grid)
  (ball_type : bool) (dt : num) : option Locals * Grid :=
  let new_center := advance_point center direction BALLSPEED dt in
  let new_direction := direction in
  let normal := boundary_normal new_center in
  let loc :=
    match normal with
    | Some normal =>
        let new_direction := reflect new_direction normal in
        (advance_point center new_direction BALLSPEED dt, new_direction)
    | None => (new_center, new_direction)
    end in
  scan_grid center ball_type dt loc grid.

(** *** GameState (lines 21-40) and run (lines 164-172) *)

Record GameState := mkGameState {
  running : bool;
  paused : bool;
  grid : Grid;
  dayball : Vector2 num;
  nightball : Vector2 num;
  dayball_direction : Vector2 num;
  nightball_direction : Vector2 num
}.

(** Modelled from the spec: [Rect(l, t, w, h)] truncates its arguments. *)
Definition Rect_new (l t w h : num) : Rect :=
  mkRect (num_to_int l) (num_to_int t) (num_to_int w) (num_to_int h).

(** Modelled from the spec: [r.move(dx, dy)], a copy moved by the offset. *)
Definition Rect_move (r : Rect) (dx dy : num) : Rect :=
  mkRect (rect_x r + num_to_int dx) (rect_y r + num_to_int dy)
         (rect_w r) (rect_h r).

(** The grid that lines 26-31 leave: row [j], column [i]. *)
Definition init_grid : Grid :=
  let r := Rect_new #0 #0 RECTSIZE RECTSIZE in
  map (fun j : nat =>
    map (fun i : nat =>
      let rect :=
        Rect_move r (RECTSIZE * #(Z.of_nat i)) (RECTSIZE * #(Z.of_nat j)) in
      (rect, #(Z.of_nat i) <? #GRIDX / #2))
      (seq 0 (Z.to_nat GRIDX)))
    (seq 0 (Z.to_nat GRIDY)).

Definition GameState_init : GameState :=
  let gridsize := vec (#GRIDX * RECTSIZE) (#GRIDY * RECTSIZE) in
  let dayball := vdiv gridsize #2 in
  let nightball := vdiv gridsize #2 in
  let dayball := vec (vx dayball + vx gridsize / #4) (vy dayball) in
  let nightball := vec (vx nightball - vx gridsize / #4) (vy nightball) in
  {| running := true;
     paused := true;
     grid := init_grid;
     dayball := dayball;
     nightball := nightball;
     dayball_direction := normalize (vec #1 #1);
     nightball_direction := normalize (vec #(-1) #(-1)) |}.

(** Lines 46 and 49 of [process_events]. *)
Definition request_quit (state : GameState) : GameState :=
  mkGameState false (paused state) (grid state) (dayball state)
    (nightball state) (dayball_direction state) (nightball_direction state).

Definition toggle_pause (state : GameState) : GameState :=
  mkGameState (running state) (negb (paused state)) (grid state)
    (dayball state) (nightball state) (dayball_direction state)
    (nightball_direction state).

(** [run] returns [(ok, state)]: [ok] is [false] when a call of [run_ball]
    raised, and [state] is the state object as the call leaves it. *)
Definition run (state : GameState) (dt : Z) : bool * GameState :=
  if paused state then (true, state)
  else
    match run_ball (dayball state) (dayball_direction state) (grid state)
                   true #dt with
    | (None, g) =>
        (false, mkGameState (running state) (paused state) g (dayball state)
                  (nightball state) (dayball_direction state)
                  (nightball_direction state))
    | (Some (c, d), g) =>
        match run_ball (nightball state) (nightball_direction state) g
                       false #dt with
        | (None, g') =>
            (false, mkGameState (running state) (paused state) g' c
                      (nightball state) d (nightball_direction state))
        | (Some (c', d'), g') =>
            (true, mkGameState (running state) (paused state) g' c c' d d')
        end
    end.

(** *** Notions the properties are stated with *)

(** [x] clamped to the bounds [lo] and [hi]. *)
Definition clamp (lo hi x : num) : num :=
  if x <? lo then lo else if hi <? x then hi else x.

(** The centre clamped to the bounds of the rectangle on each axis. *)
Definition nearest_point (center : Vector2 num) (rect : Rect)
  : Vector2 num :=
  vec (clamp #(rect_left rect) #(rect_right rect) (vx center))
      (clamp #(rect_top rect) #(rect_bottom rect) (vy center)).

(** The Euclidean distance between two points. *)
Definition euclid (p q : Vector2 num) : num :=
  vlength (vec (vx p - vx q) (vy p - vy q)).

(** The positions [(j, i)], in scan order, of the cells that have the state
    [ball_type] and collide with a ball centred at [center]: the cells
    for which line 155 finds a normal. *)
Definition colliding_cells (center : Vector2 num) (ball_type : bool)
  (g : Grid) : list (nat * nat) :=
  List.filter
    (fun p : nat * nat =>
       match cell_at g p.1 p.2 with
       | Some (rect, cell_type) =>
           eqb cell_type ball_type
           && bool_decide (is_Some (ball_rect_collision center BALLSIZE rect))
       | None => false
       end)
    (list_prod (seq 0 (Z.to_nat GRIDY)) (seq 0 (Z.to_nat GRIDX))).

(** The ball [ball_type] changed, from [g] to [g'], only cells whose state
    differed from its identity, and left them in its own state. *)
Definition flips_only_opposite (ball_type : bool) (g g' : Grid) : Prop :=
  forall j i rect ct rect' ct',
    cell_at g j i = Some (rect, ct) ->
    cell_at g' j i = Some (rect', ct') ->
    ct' <> ct ->
    ct = negb ball_type /\ ct' = ball_type.

End Engine.

(** The grid has the [GRIDY] rows of [GRIDX] cells that [run_ball] reads. *)
Definition grid_covers (g : Grid) : bool :=
  forallb (fun j =>
    forallb (fun i => bool_decide (is_Some (cell_at g j i)))
            (seq 0 (Z.to_nat GRIDX)))
    (seq 0 (Z.to_nat GRIDY)).

Definition covers (g : Grid) : Prop :=
  forall j i : nat,
    (j < Z.to_nat GRIDY)%nat -> (i < Z.to_nat GRIDX)%nat ->
    is_Some (cell_at g j i).

#[export] Instance Rect_eq_dec : EqDecision Rect.
Proof. solve_decision. Defined.

(** The positions [(j, i)], in scan order, at which [g] and [g'] differ. *)
Definition changed_cells (g g' : Grid) : list (nat * nat) :=
  List.filter
    (fun p : nat * nat =>
       negb (bool_decide (cell_at g p.1 p.2 = cell_at g' p.1 p.2)))
    (list_prod (seq 0 (Z.to_nat GRIDY)) (seq 0 (Z.to_nat GRIDX))).

(** A binary64 vector with integer coordinates. *)
Definition fvec (x y : Z) : Vector2 float :=
  vec (float_of_int x) (float_of_int y).

(** What the proofs use of the order: no number is below itself. *)
Class ArithLaws (num : Type) `{Arith num} : Prop := {
  num_lt_irrefl : forall x : num, (x <? x)%num = false
}.

(** * Properties *)

(** ** The two arithmetics *)

Lemma float_ltb_irrefl (x : float) : PrimFloat.ltb x x = false.
Proof.
  rewrite ltb_spec. unfold SFltb.
  destruct (Prim2SF x) as [s | s | | s m e]; simpl; try reflexivity;
    destruct s; try reflexivity;
    rewrite ?Z.compare_refl, ?Pos.compare_refl, ?Pos.compare_cont_refl;
    reflexivity.
Qed.

#[export] Instance float_laws : ArithLaws float.
Proof. constructor. exact float_ltb_irrefl. Qed.

Lemma Rltb_irrefl (x : R) : Rltb x x = false.
Proof. unfold Rltb. destruct (Rlt_dec x x); [lra | reflexivity]. Qed.

#[export] Instance real_laws : ArithLaws R.
Proof. constructor. exact Rltb_irrefl. Qed.

(** ** The collision resolver *)

Section Resolver.
Context {num : Type} {A : Arith num}.
Local Open Scope num_scope.
Implicit Types (center : Vector2 num) (radius : num) (rect : Rect).

Lemma test_point_nearest center rect :
  test_point center rect = nearest_point center rect.
Proof. reflexivity. Qed.

Lemma distance_euclid (p q : Vector2 num) : distance p q = euclid p q.
Proof. reflexivity. Qed.

(** The resolver answers [None] exactly when the test of line 109 holds. *)
Lemma collision_none_iff center radius rect :
  ball_rect_collision center radius rect = None <->
  (distance center (test_point center rect) >? radius) = true.
Proof.
  unfold ball_rect_collision.
  destruct (distance center (test_point center rect) >? radius).
  - split; reflexivity.
  - split; [| discriminate].
    destruct (in_hspan center rect); [destruct (ynormal_of center rect) |];
      [discriminate | discriminate |].
    destruct (in_vspan center rect); [destruct (xnormal_of center rect) |];
      discriminate.
Qed.

Lemma collision_some center radius rect :
  (distance center (test_point center rect) >? radius) = false ->
  exists n, ball_rect_collision center radius rect = Some n.
Proof.
  intros Hd.
  destruct (ball_rect_collision center radius rect) as [n |] eqn:E.
  - exists n; reflexivity.
  - apply collision_none_iff in E. congruence.
Qed.

(** C3. The resolver reports no collision exactly when the Euclidean distance
    from the centre to the nearest point of the rectangle (the centre
    clamped to the rectangle's bounds on each axis) is strictly greater
    than the radius; when that distance equals the radius (exact touching)
    it reports a collision and returns a normal. *)
Theorem collision_none_iff_far `{!ArithLaws num} center radius rect :
  let d := euclid center (nearest_point center rect) in
  (ball_rect_collision center radius rect = None <-> (d >? radius) = true)
  /\ (d = radius ->
      exists n, ball_rect_collision center radius rect = Some n).
Proof.
  intros d. split.
  - apply collision_none_iff.
  - intros Hd. apply collision_some.
    change (distance center (test_point center rect)) with d.
    rewrite Hd. apply num_lt_irrefl.
Qed.

(** C8. When the resolver detects a collision and the centre lies outside
    both the horizontal and the vertical span of the rectangle, the normal
    it returns is exactly (1, 0). *)
Theorem corner_fallback center radius rect :
  (exists n, ball_rect_collision center radius rect = Some n) ->
  in_hspan center rect = false ->
  in_vspan center rect = false ->
  ball_rect_collision center radius rect = Some (vec #1 #0).
Proof.
  intros [n Hn] Hh Hv. revert Hn. unfold ball_rect_collision.
  rewrite Hh, Hv.
  destruct (distance center (test_point center rect) >? radius);
    [discriminate | reflexivity].
Qed.

Lemma ynormal_cases center rect :
  ynormal_of center rect = None
  \/ ynormal_of center rect = Some (vec #1 #0)
  \/ ynormal_of center rect = Some (vec #(-1) #0).
Proof.
  unfold ynormal_of.
  destruct (vy center <? #(rect_top rect)); [tauto |].
  destruct (vy center >? #(rect_bottom rect)); tauto.
Qed.

Lemma xnormal_cases center rect :
  xnormal_of center rect = None
  \/ xnormal_of center rect = Some (vec #1 #0)
  \/ xnormal_of center rect = Some (vec #(-1) #0).
Proof.
  unfold xnormal_of.
  destruct (vx center <? #(rect_left rect)); [tauto |].
  destruct (vx center >? #(rect_right rect)); tauto.
Qed.

Lemma collision_cases center radius rect :
  ball_rect_collision center radius rect = None
  \/ ball_rect_collision center radius rect = Some (vec #1 #0)
  \/ ball_rect_collision center radius rect = Some (vec #(-1) #0).
Proof.
  unfold ball_rect_collision.
  destruct (distance center (test_point center rect) >? radius); [tauto |].
  destruct (in_hspan center rect).
  - destruct (ynormal_cases center rect) as [-> | [-> | ->]]; tauto.
  - destruct (in_vspan center rect); [| tauto].
    destruct (xnormal_cases center rect) as [-> | [-> | ->]]; tauto.
Qed.

(** C10. Every normal the resolver returns lies on the x axis: its answer is
    no collision, (1, 0) or (-1, 0), and the intermediate normal [ynormal]
    of the top and bottom faces is itself (1, 0) or (-1, 0) when set, so
    the y component of a returned normal is always zero. *)
Theorem collision_normal_on_x_axis center radius rect :
  (ball_rect_collision center radius rect = None
   \/ ball_rect_collision center radius rect = Some (vec #1 #0)
   \/ ball_rect_collision center radius rect = Some (vec #(-1) #0))
  /\ (ynormal_of center rect = None
      \/ ynormal_of center rect = Some (vec #1 #0)
      \/ ynormal_of center rect = Some (vec #(-1) #0))
  /\ (forall n, ball_rect_collision center radius rect = Some n ->
                vy n = #0).
Proof.
  split; [apply collision_cases |]. split; [apply ynormal_cases |].
  intros n Hn.
  destruct (collision_cases center radius rect) as [H | [H | H]];
    rewrite H in Hn; [discriminate | |]; injection Hn as <-; reflexivity.
Qed.

End Resolver.

(** *** The resolver on binary64 *)

Local Open Scope num_scope.

(** A ball of radius 10 whose centre (31, 33) is at distance exactly 10 from
    the corner (25, 25) of the cell at the origin. *)
Lemma collision_none_iff_far_witness :
  euclid (fvec 31 33) (nearest_point (fvec 31 33) (mkRect 0 0 25 25))
    = (#10 : float)
  /\ exists n : Vector2 float,
       ball_rect_collision (fvec 31 33) (#10 : float) (mkRect 0 0 25 25)
       = Some n.
Proof.
  split.
  - vm_compute. reflexivity.
  - apply (collision_none_iff_far (num := float)
             (fvec 31 33) (#10 : float) (mkRect 0 0 25 25)).
    vm_compute. reflexivity.
Defined.

Lemma corner_fallback_witness :
  (exists n : Vector2 float,
     ball_rect_collision (fvec 31 33) (#10 : float) (mkRect 0 0 25 25)
     = Some n)
  /\ in_hspan (fvec 31 33) (mkRect 0 0 25 25) = false
  /\ in_vspan (fvec 31 33) (mkRect 0 0 25 25) = false
  /\ ball_rect_collision (fvec 31 33) (#10 : float) (mkRect 0 0 25 25)
     = Some (fvec 1 0).
Proof.
  assert (H : exists n : Vector2 float,
             ball_rect_collision (fvec 31 33) (#10 : float)
                                 (mkRect 0 0 25 25) = Some n).
  { exists (fvec 1 0). vm_compute. reflexivity. }
  split; [exact H |].
  split; [vm_compute; reflexivity |].
  split; [vm_compute; reflexivity |].
  apply (corner_fallback (num := float) (fvec 31 33) (#10 : float)
           (mkRect 0 0 25 25) H);
    vm_compute; reflexivity.
Defined.

(** C2, at the input where the code departs from it.  The centre (5, -3) is
    within the horizontal span of the cell at the origin and above its top
    face, at distance 3 from it: the claim asks for the y-axis normal of
    the top face, (0, -1); the code returns (1, 0), because lines 100 and
    103 build [ynormal] on the x axis. *)
Theorem top_face_gets_x_normal :
  let center := fvec 5 (-3) in
  let rect := mkRect 0 0 25 25 in
  in_hspan center rect = true
  /\ (vy center <? #(rect_top rect)) = true
  /\ ynormal_of center rect = Some (fvec 1 0)
  /\ ball_rect_collision center (#10 : float) rect = Some (fvec 1 0).
Proof. vm_compute. repeat split; reflexivity. Qed.

(** ** The grid *)

Lemma cell_at_set_cell_eq (g : Grid) (j i : nat) (c0 c : Cell) :
  cell_at g j i = Some c0 -> cell_at (set_cell g j i c) j i = Some c.
Proof.
  unfold cell_at, set_cell. rewrite list_lookup_alter_eq.
  destruct (g !! j) as [row |]; [| discriminate]. simpl. intros Hrow.
  apply list_lookup_insert_eq. apply lookup_lt_is_Some. eauto.
Qed.

Lemma cell_at_set_cell_ne (g : Grid) (j i j' i' : nat) (c : Cell) :
  (j, i) <> (j', i') ->
  cell_at (set_cell g j i c) j' i' = cell_at g j' i'.
Proof.
  intros Hne. unfold cell_at, set_cell.
  destruct (decide (j = j')) as [-> | Hj].
  - rewrite list_lookup_alter_eq.
    destruct (g !! j') as [row |]; [| reflexivity]. simpl.
    apply list_lookup_insert_ne. congruence.
  - rewrite list_lookup_alter_ne by exact Hj. reflexivity.
Qed.

Lemma grid_covers_spec (g : Grid) : grid_covers g = true -> covers g.
Proof.
  unfold grid_covers, covers. intros H j i Hj Hi.
  rewrite forallb_forall in H.
  assert (Hrow := H j ltac:(apply in_seq; lia)).
  rewrite forallb_forall in Hrow.
  assert (Hc := Hrow i ltac:(apply in_seq; lia)).
  apply bool_decide_eq_true in Hc. exact Hc.
Qed.

(** ** The scan of the grid *)

Section Scan.
Context {num : Type} {A : Arith num}.
Local Open Scope num_scope.
Variables (center : Vector2 num) (ball_type : bool) (dt : num).

(** What one call of the scan may do to a cell: leave it, or turn a cell
    of the ball's own type, which the ball touches, into the other type. *)
Definition flip_step (g g' : Grid) : Prop :=
  forall j i rect ct,
    cell_at g j i = Some (rect, ct) ->
    cell_at g' j i = Some (rect, ct)
    \/ (ct = ball_type
        /\ cell_at g' j i = Some (rect, negb ball_type)
        /\ exists n, ball_rect_collision center BALLSIZE rect = Some n).

Lemma flip_step_refl (g : Grid) : flip_step g g.
Proof. intros j i rect ct H. left. exact H. Qed.

Lemma flip_step_trans (g1 g2 g3 : Grid) :
  flip_step g1 g2 -> flip_step g2 g3 -> flip_step g1 g3.
Proof.
  intros H12 H23 j i rect ct H1.
  destruct (H12 j i rect ct H1) as [H2 | (Hct & H2 & Hn)].
  - exact (H23 j i rect ct H2).
  - destruct (H23 j i rect _ H2) as [H3 | (Hct' & _)].
    + right. auto.
    + destruct ball_type; discriminate.
Qed.

Lemma flip_step_put (g : Grid) (j i : nat) (rect : Rect) (n : Vector2 num) :
  cell_at g j i = Some (rect, ball_type) ->
  ball_rect_collision center BALLSIZE rect = Some n ->
  flip_step g (set_cell g j i (rect, negb ball_type)).
Proof.
  intros Hc Hn j' i' rect' ct' H.
  destruct (decide ((j, i) = (j', i'))) as [E | E].
  - inversion E; subst j' i'. right.
    rewrite Hc in H. inversion H; subst rect' ct'.
    split; [reflexivity |]. split; [| eauto].
    eapply cell_at_set_cell_eq. exact Hc.
  - left. rewrite cell_at_set_cell_ne by exact E. exact H.
Qed.

(** The body of the loop over [i], at the grid [g]. *)
Lemma scan_row_cons (j i : nat) (cols : list nat) (loc : Locals) (g : Grid) :
  scan_row center ball_type dt j (i :: cols) loc g =
  match cell_at g j i with
  | None => (None, g)
  | Some (rect, cell_type) =>
      if negb (eqb cell_type ball_type) then
        scan_row center ball_type dt j cols loc g
      else
        match ball_rect_collision center BALLSIZE rect with
        | Some normal =>
            (Some (advance_point center (reflect (snd loc) normal)
                                 BALLSPEED dt,
                   reflect (snd loc) normal),
             set_cell g j i (rect, negb cell_type))
        | None => scan_row center ball_type dt j cols loc g
        end
  end.
Proof.
  simpl. unfold bind, get_cell.
  destruct (cell_at g j i) as [[rect cell_type] |]; [| reflexivity].
  destruct (negb (eqb cell_type ball_type)); [reflexivity |].
  destruct (ball_rect_collision center BALLSIZE rect); reflexivity.
Qed.

Lemma scan_rows_cons (j : nat) (rows : list nat) (loc : Locals) (g : Grid) :
  scan_rows center ball_type dt (j :: rows) loc g =
  match scan_row center ball_type dt j (seq 0 (Z.to_nat GRIDX)) loc g with
  | (Some loc', g') => scan_rows center ball_type dt rows loc' g'
  | (None, g') => (None, g')
  end.
Proof. reflexivity. Qed.

Lemma scan_row_flip_step (j : nat) (cols : list nat) (loc : Locals)
  (g : Grid) :
  flip_step g (snd (scan_row center ball_type dt j cols loc g)).
Proof.
  induction cols as [| i cols IH]; [apply flip_step_refl |].
  rewrite scan_row_cons.
  destruct (cell_at g j i) as [[rect cell_type] |] eqn:Hc;
    [| apply flip_step_refl].
  destruct (eqb_spec cell_type ball_type) as [-> | Hne]; simpl; [| exact IH].
  destruct (ball_rect_collision center BALLSIZE rect) as [n |] eqn:Hn;
    [| exact IH].
  simpl. eapply flip_step_put; eassumption.
Qed.

Lemma scan_rows_flip_step (rows : list nat) (loc : Locals) (g : Grid) :
  flip_step g (snd (scan_rows center ball_type dt rows loc g)).
Proof.
  revert loc g. induction rows as [| j rows IH]; intros loc g;
    [apply flip_step_refl |].
  rewrite scan_rows_cons.
  assert (Hrow := scan_row_flip_step j (seq 0 (Z.to_nat GRIDX)) loc g).
  destruct (scan_row center ball_type dt j (seq 0 (Z.to_nat GRIDX)) loc g)
    as [[loc' |] g']; simpl in Hrow; [| exact Hrow].
  eapply flip_step_trans; [exact Hrow | apply IH].
Qed.

Lemma flip_step_covers (g g' : Grid) : flip_step g g' -> covers g -> covers g'.
Proof.
  intros Hf Hc j i Hj Hi.
  destruct (Hc j i Hj Hi) as [[rect ct] H].
  destruct (Hf j i rect ct H) as [H' | (_ & H' & _)]; rewrite H'; eauto.
Qed.

(** On a grid with all its cells the scan raises nothing. *)
Lemma scan_row_returns (j : nat) (cols : list nat) (loc : Locals) (g : Grid) :
  (forall i, In i cols -> is_Some (cell_at g j i)) ->
  exists loc', fst (scan_row center ball_type dt j cols loc g) = Some loc'.
Proof.
  induction cols as [| i cols IH]; intros Hin; [simpl; eauto |].
  rewrite scan_row_cons.
  destruct (Hin i (or_introl eq_refl)) as [[rect cell_type] Hc]. rewrite Hc.
  assert (IH' := IH (fun i' Hi' => Hin i' (or_intror Hi'))).
  destruct (negb (eqb cell_type ball_type)); [exact IH' |].
  destruct (ball_rect_collision center BALLSIZE rect);
    [simpl; eauto | exact IH'].
Qed.

Lemma scan_rows_returns (rows : list nat) (loc : Locals) (g : Grid) :
  covers g ->
  (forall j, In j rows -> (j < Z.to_nat GRIDY)%nat) ->
  exists loc', fst (scan_rows center ball_type dt rows loc g) = Some loc'.
Proof.
  revert loc g. induction rows as [| j rows IH]; intros loc g Hc Hin;
    [simpl; eauto |].
  rewrite scan_rows_cons.
  assert (Hrow := scan_row_flip_step j (seq 0 (Z.to_nat GRIDX)) loc g).
  destruct (scan_row_returns j (seq 0 (Z.to_nat GRIDX)) loc g) as [loc' Hl].
  { intros i Hi. apply in_seq in Hi. apply Hc; [| lia].
    apply Hin. left. reflexivity. }
  destruct (scan_row center ball_type dt j (seq 0 (Z.to_nat GRIDX)) loc g)
    as [[loc'' |] g']; simpl in Hl, Hrow; [| discriminate].
  apply IH.
  - eapply flip_step_covers; eassumption.
  - intros j' Hj'. apply Hin. right. exact Hj'.
Qed.

(** Within one row the scan stops at the first cell of the ball's type that
    collides: that cell is the only one of the row that is flipped. *)
Lemma scan_row_first_hit (j : nat) (cols : list nat) (loc : Locals)
  (g : Grid) :
  snd (scan_row center ball_type dt j cols loc g) = g
  \/ exists pre i post rect n,
       cols = pre ++ i :: post
       /\ cell_at g j i = Some (rect, ball_type)
       /\ ball_rect_collision center BALLSIZE rect = Some n
       /\ (forall i' rect',
             In i' pre -> cell_at g j i' = Some (rect', ball_type) ->
             ball_rect_collision center BALLSIZE rect' = None)
       /\ scan_row center ball_type dt j cols loc g
          = (Some (advance_point center (reflect (snd loc) n) BALLSPEED dt,
                   reflect (snd loc) n),
             set_cell g j i (rect, negb ball_type)).
Proof.
  induction cols as [| i cols IH]; [left; reflexivity |].
  rewrite scan_row_cons.
  destruct (cell_at g j i) as [[rect cell_type] |] eqn:Hc;
    [| left; reflexivity].
  assert (Hskip :
    (forall rect', cell_at g j i = Some (rect', ball_type) ->
                   ball_rect_collision center BALLSIZE rect' = None) ->
    snd (scan_row center ball_type dt j cols loc g) = g
    \/ exists pre i0 post rect0 n,
         i :: cols = pre ++ i0 :: post
         /\ cell_at g j i0 = Some (rect0, ball_type)
         /\ ball_rect_collision center BALLSIZE rect0 = Some n
         /\ (forall i' rect',
               In i' pre -> cell_at g j i' = Some (rect', ball_type) ->
               ball_rect_collision center BALLSIZE rect' = None)
         /\ scan_row center ball_type dt j cols loc g
            = (Some (advance_point center (reflect (snd loc) n) BALLSPEED dt,
                     reflect (snd loc) n),
               set_cell g j i0 (rect0, negb ball_type))).
  { intros Hno. destruct IH as [IH | (pre & i0 & post & rect0 & n & IH)];
      [left; exact IH | right].
    destruct IH as (Hcols & Hc0 & Hn0 & Hpre & Hres).
    exists (i :: pre), i0, post, rect0, n.
    split; [rewrite Hcols; reflexivity |].
    split; [exact Hc0 |]. split; [exact Hn0 |]. split; [| exact Hres].
    intros i' rect' [<- | Hin] Hc'; [exact (Hno rect' Hc') |].
    exact (Hpre i' rect' Hin Hc'). }
  destruct (eqb_spec cell_type ball_type) as [-> | Hne]; simpl.
  - destruct (ball_rect_collision center BALLSIZE rect) as [n |] eqn:Hn.
    + right. exists [], i, cols, rect, n.
      split; [reflexivity |]. split; [exact Hc |]. split; [exact Hn |].
      split; [intros i' rect' [] | reflexivity].
    + apply Hskip. intros rect' Hc'. rewrite Hc in Hc'.
      injection Hc' as <-. exact Hn.
  - apply Hskip. intros rect' Hc'. rewrite Hc in Hc'.
      injection Hc' as _ E. contradiction.
Qed.

(** A property of the direction that every reflection across a normal of
    the resolver keeps is kept by the scan. *)
Section Direction.
Variable P : Vector2 num -> Prop.
Hypothesis P_reflect :
  forall d rect n,
    P d -> ball_rect_collision center BALLSIZE rect = Some n ->
    P (reflect d n).

Lemma scan_row_direction (j : nat) (cols : list nat) (loc loc' : Locals)
  (g : Grid) :
  P (snd loc) ->
  fst (scan_row center ball_type dt j cols loc g) = Some loc' ->
  P (snd loc').
Proof using P_reflect.
  intros HP. induction cols as [| i cols IH].
  - simpl. intros [= <-]. exact HP.
  - rewrite scan_row_cons.
    destruct (cell_at g j i) as [[rect cell_type] |]; [| discriminate].
    destruct (negb (eqb cell_type ball_type)); [exact IH |].
    destruct (ball_rect_collision center BALLSIZE rect) as [n |] eqn:Hn;
      [| exact IH].
    simpl. intros [= <-]. simpl. eapply P_reflect; eassumption.
Qed.

Lemma scan_rows_direction (rows : list nat) (loc loc' : Locals) (g : Grid) :
  P (snd loc) ->
  fst (scan_rows center ball_type dt rows loc g) = Some loc' ->
  P (snd loc').
Proof using P_reflect.
  revert loc g. induction rows as [| j rows IH]; intros loc g HP.
  - simpl. intros [= <-]. exact HP.
  - rewrite scan_rows_cons.
    destruct (scan_row center ball_type dt j (seq 0 (Z.to_nat GRIDX)) loc g)
      as [[loc1 |] g1] eqn:E; [| discriminate].
    apply IH. eapply scan_row_direction; [exact HP |]. rewrite E. reflexivity.
Qed.

End Direction.

End Scan.

(** ** run_ball and run *)

Section Advance.
Context {num : Type} {A : Arith num}.
Local Open Scope num_scope.

(** C1, as the code has it.  Whatever a call of [run_ball] does to a cell of
    the grid, it leaves the rectangle alone, and it either leaves the state
    alone or the cell had the ball's own identity, collides with the ball
    at its centre before the step, and ends in the opposite state: the day
    ball turns day cells into night cells and the night ball turns night
    cells into day cells; a cell of the other state is never changed. *)
Theorem run_ball_flips_own_type
  (center direction : Vector2 num) (grid : Grid) (ball_type : bool)
  (dt : num) (j i : nat) (rect : Rect) (ct : bool) :
  cell_at grid j i = Some (rect, ct) ->
  let grid' := snd (run_ball center direction grid ball_type dt) in
  cell_at grid' j i = Some (rect, ct)
  \/ (ct = ball_type
      /\ cell_at grid' j i = Some (rect, negb ball_type)
      /\ exists n, ball_rect_collision center BALLSIZE rect = Some n).
Proof.
  intros H grid'.
  exact (scan_rows_flip_step center ball_type dt _ _ grid j i rect ct H).
Qed.

(** C7. While the state is paused, [run] changes nothing: the grid, both
    centres and both directions are those of the state it was given. *)
Theorem paused_run_is_noop (state : GameState) (dt : Z) :
  paused state = true -> run state dt = (true, state).
Proof. intros Hp. unfold run. rewrite Hp. reflexivity. Qed.

End Advance.

(** The spec's scenario for the pause key (line 49). *)
Lemma toggle_pause_twice {num : Type} (state : GameState (num := num)) :
  paused (toggle_pause (toggle_pause state)) = paused state.
Proof. simpl. apply negb_involutive. Qed.

(** *** The advance on binary64 *)

(** The day ball next to the day cell of row 4, column 4. *)
Lemma run_ball_flips_own_type_witness :
  let grid := init_grid (num := float) in
  let grid' :=
    snd (run_ball (fvec 130 110) (normalize (fvec 1 1)) grid true
                  (#1 : float)) in
  cell_at grid 4 4 = Some (mkRect 100 100 25 25, true)
  /\ (cell_at grid' 4 4 = Some (mkRect 100 100 25 25, true)
      \/ (true = true
          /\ cell_at grid' 4 4 = Some (mkRect 100 100 25 25, negb true)
          /\ exists n : Vector2 float,
               ball_rect_collision (fvec 130 110) BALLSIZE
                                   (mkRect 100 100 25 25) = Some n)).
Proof.
  split.
  - vm_compute. reflexivity.
  - apply (run_ball_flips_own_type (num := float)
             (fvec 130 110) (normalize (fvec 1 1)) init_grid true
             (#1 : float) 4 4 (mkRect 100 100 25 25) true).
    vm_compute. reflexivity.
Defined.

(** C1, as the spec words it, fails: the day ball at (130, 110) touches the
    day cell of row 4, column 4, and turns it into a night cell. *)
Lemma day_ball_flips_day_cell :
  let grid := init_grid (num := float) in
  let grid' :=
    snd (run_ball (fvec 130 110) (normalize (fvec 1 1)) grid true
                  (#1 : float)) in
  cell_at grid 4 4 = Some (mkRect 100 100 25 25, true)
  /\ cell_at grid' 4 4 = Some (mkRect 100 100 25 25, false)
  /\ ~ flips_only_opposite true grid grid'.
Proof.
  assert (H0 : cell_at (init_grid (num := float)) 4 4
               = Some (mkRect 100 100 25 25, true))
    by (vm_compute; reflexivity).
  assert (H1 : cell_at (snd (run_ball (fvec 130 110) (normalize (fvec 1 1))
                               (init_grid (num := float)) true
                               (#1 : float))) 4 4
               = Some (mkRect 100 100 25 25, false))
    by (vm_compute; reflexivity).
  cbv zeta. split; [exact H0 |]. split; [exact H1 |].
  intros Hclaim.
  destruct (Hclaim 4%nat 4%nat _ _ _ _ H0 H1) as [Hct _];
    [discriminate | discriminate].
Qed.

Lemma paused_run_is_noop_witness :
  paused (GameState_init (num := float)) = true
  /\ run (GameState_init (num := float)) 16 = (true, GameState_init).
Proof.
  split; [reflexivity |].
  apply (paused_run_is_noop (num := float) GameState_init 16). reflexivity.
Defined.

(** C5, at the input where the code departs from it.  The day ball at
    (130, 125) touches the day cells of column 4 in rows 4 and 5.  The
    [break] of line 159 leaves the loop over the columns only, so the loop
    over the rows goes on: both cells are flipped in the one call, and the
    direction, reflected twice, is the one the ball came with. *)
Theorem two_cells_flipped_in_one_call :
  let grid := init_grid (num := float) in
  let direction : Vector2 float := normalize (fvec 1 1) in
  let r := run_ball (fvec 130 125) direction grid true (#1 : float) in
  colliding_cells (fvec 130 125) true grid = [(4, 4); (5, 4)]%nat
  /\ changed_cells grid (snd r) = [(4, 4); (5, 4)]%nat
  /\ cell_at grid 4 4 = Some (mkRect 100 100 25 25, true)
  /\ cell_at (snd r) 4 4 = Some (mkRect 100 100 25 25, false)
  /\ cell_at grid 5 4 = Some (mkRect 100 125 25 25, true)
  /\ cell_at (snd r) 5 4 = Some (mkRect 100 125 25 25, false)
  /\ option_map snd (fst r) = Some direction.
Proof. vm_compute. repeat split; reflexivity. Qed.

Lemma normalize_axis_float :
  normalize (vec #1 #0) = (vec #1 #0 : Vector2 float)
  /\ normalize (vec #0 #(-1)) = (vec #0 #(-1) : Vector2 float)
  /\ normalize (vec #(-1) #0) = (vec #(-1) #0 : Vector2 float)
  /\ normalize (vec #0 #1) = (vec #0 #1 : Vector2 float).
Proof. vm_compute. repeat split; reflexivity. Qed.


(** The first test wins and nothing is tested again: a ball that steps past
    the left and the top edge at once has only its x direction reversed. *)
Example left_edge_before_top_edge :
  fst (run_ball (fvec 10 10) (normalize (fvec (-1) (-1)))
                (init_grid (num := float)) false (#1 : float))
  = Some (advance_point (fvec 10 10)
            (vec (vx (normalize (fvec 1 1))) (vy (normalize (fvec (-1) (-1)))))
            BALLSPEED (#1 : float),
          vec (vx (normalize (fvec 1 1))) (vy (normalize (fvec (-1) (-1))))).
Proof. vm_compute. reflexivity. Qed.

(** C9. On the grid of 10 by 10 cells of 25 units, the day ball starts at
    (187.5, 125) with the direction (1, 1) normalized.  One call of
    [run_ball] with [dt = 1] (the speed is 0.5) meets no boundary and
    flips no cell: it returns the tentative centre, which is (187.854,
    125.354) to three decimals, and the direction it was given. *)
Theorem first_tick_of_day_ball :
  let state := GameState_init (num := float) in
  let tentative :=
    advance_point (dayball state) (dayball_direction state) BALLSPEED
                  (#1 : float) in
  dayball state = vec (#375 / #2) #125
  /\ dayball_direction state = normalize (fvec 1 1)
  /\ boundary_normal tentative = None
  /\ colliding_cells (dayball state) true (grid state) = []
  /\ run_ball (dayball state) (dayball_direction state) (grid state) true
              (#1 : float)
     = (Some (tentative, dayball_direction state), grid state)
  /\ (#187853 / #1000 <? vx tentative) = true
  /\ (vx tentative <? #187855 / #1000) = true
  /\ (#125353 / #1000 <? vy tentative) = true
  /\ (vy tentative <? #125355 / #1000) = true.
Proof. vm_compute. repeat split; reflexivity. Qed.

(** ** The direction on the reals *)

Section OnReals.
Local Open Scope R_scope.
Implicit Types (v n : Vector2 R).

Lemma sqrt_eq_1 (x : R) : sqrt x = 1 -> x = 1.
Proof.
  intros H. destruct (Rle_dec 0 x) as [Hx | Hx].
  - rewrite <- (sqrt_sqrt x Hx), H. ring.
  - rewrite sqrt_neg_0 in H by lra. lra.
Qed.

Lemma dot_real v n : dot v n = vx v * vx n + vy v * vy n.
Proof. reflexivity. Qed.

Lemma vlength_real v : vlength v = sqrt (vx v * vx v + vy v * vy v).
Proof. reflexivity. Qed.

Lemma reflect_keeps_length v n :
  vlength n = 1 -> vlength (reflect v n) = vlength v.
Proof.
  rewrite !vlength_real. intros Hn. apply sqrt_eq_1 in Hn.
  f_equal. unfold reflect. rewrite dot_real. cbn.
  replace ((vx v - 2 * vx n * (vx v * vx n + vy v * vy n)) *
           (vx v - 2 * vx n * (vx v * vx n + vy v * vy n)) +
           (vy v - 2 * vy n * (vx v * vx n + vy v * vy n)) *
           (vy v - 2 * vy n * (vx v * vx n + vy v * vy n)))
    with (vx v * vx v + vy v * vy v
          + 4 * (vx v * vx n + vy v * vy n) * (vx v * vx n + vy v * vy n)
            * (vx n * vx n + vy n * vy n - 1)) by ring.
  rewrite Hn. ring.
Qed.

Lemma normalize_unit v :
  0 < vx v * vx v + vy v * vy v -> vlength (normalize v) = 1.
Proof.
  intros Hpos. unfold normalize, vdiv. rewrite !vlength_real. cbn.
  set (l := sqrt (vx v * vx v + vy v * vy v)).
  assert (Hl : 0 < l) by (apply sqrt_lt_R0; exact Hpos).
  assert (Hll : l * l = vx v * vx v + vy v * vy v)
    by (apply sqrt_sqrt; lra).
  replace (vx v / l * (vx v / l) + vy v / l * (vy v / l))
    with ((vx v * vx v + vy v * vy v) / (l * l)) by (field; lra).
  rewrite <- Hll.
  replace (l * l / (l * l)) with 1 by (field; lra).
  apply sqrt_1.
Qed.

(** The clamped point is a point of the interval, and the nearest one. *)
Lemma clamp_nearest (lo hi c p : R) :
  lo <= hi -> lo <= p <= hi ->
  lo <= clamp lo hi c <= hi
  /\ (c - clamp lo hi c) * (c - clamp lo hi c) <= (c - p) * (c - p).
Proof.
  intros Hlh Hp. unfold clamp. cbn. unfold Rltb.
  destruct (Rlt_dec c lo) as [Hc | Hc].
  - split; [lra |].
    replace ((c - p) * (c - p))
      with ((c - lo) * (c - lo) + (p - lo) * (lo + p - 2 * c)) by ring.
    assert (0 <= (p - lo) * (lo + p - 2 * c))
      by (apply Rmult_le_pos; lra).
    lra.
  - destruct (Rlt_dec hi c) as [Hc' | Hc'].
    + split; [lra |].
      replace ((c - p) * (c - p))
        with ((c - hi) * (c - hi) + (hi - p) * (2 * c - hi - p)) by ring.
      assert (0 <= (hi - p) * (2 * c - hi - p))
        by (apply Rmult_le_pos; lra).
      lra.
    + split; [lra |].
      replace ((c - c) * (c - c)) with 0 by ring.
      replace ((c - p) * (c - p)) with ((c - p) ^ 2) by ring.
      apply pow2_ge_0.
Qed.

(** On the reals [nearest_point] is what its name says: for a rectangle of
    non-negative width and height it lies in the rectangle, and no point
    of the rectangle is closer to the centre. *)
Lemma nearest_point_is_nearest (center p : Vector2 R) (rect : Rect) :
  (0 <= rect_w rect)%Z -> (0 <= rect_h rect)%Z ->
  IZR (rect_left rect) <= vx p <= IZR (rect_right rect) ->
  IZR (rect_top rect) <= vy p <= IZR (rect_bottom rect) ->
  let q := nearest_point center rect in
  (IZR (rect_left rect) <= vx q <= IZR (rect_right rect)
   /\ IZR (rect_top rect) <= vy q <= IZR (rect_bottom rect))
  /\ euclid center q <= euclid center p.
Proof.
  intros Hw Hh Hx Hy q.
  assert (Hlr : IZR (rect_left rect) <= IZR (rect_right rect))
    by (apply IZR_le; unfold rect_left, rect_right; lia).
  assert (Htb : IZR (rect_top rect) <= IZR (rect_bottom rect))
    by (apply IZR_le; unfold rect_top, rect_bottom; lia).
  destruct (clamp_nearest _ _ (vx center) (vx p) Hlr Hx) as [Hqx Hdx].
  destruct (clamp_nearest _ _ (vy center) (vy p) Htb Hy) as [Hqy Hdy].
  split; [split; assumption |].
  unfold euclid. rewrite !vlength_real. cbn.
  apply sqrt_le_1_alt. lra.
Qed.

Lemma resolver_normal_unit (center : Vector2 R) (radius : R) (rect : Rect) n :
  ball_rect_collision center radius rect = Some n -> vlength n = 1.
Proof.
  intros Hn.
  destruct (collision_cases center radius rect)
    as [H | [H | H]]; rewrite H in Hn; [discriminate | |];
    injection Hn as <-; rewrite vlength_real; cbn;
    [replace (1 * 1 + 0 * 0) with 1 by ring
    | replace (-1 * -1 + 0 * 0) with 1 by ring]; apply sqrt_1.
Qed.

Lemma boundary_normal_unit (new_center : Vector2 R) n :
  boundary_normal new_center = Some n -> vlength n = 1.
Proof.
  unfold boundary_normal.
  repeat match goal with
         | |- context [if ?b then _ else _] => destruct b
         end;
    intros [= <-]; try (apply normalize_unit; cbn; lra).
Qed.

(** On the reals, a call of [run_ball] on a grid with all its cells
    returns, and the direction it returns has length 1 whenever the
    direction it was given has: every reflection, across a boundary normal
    or across a normal of the resolver, keeps the length.  The two initial
    directions have length 1. *)
Lemma unit_direction_on_reals :
  (forall (center direction : Vector2 R) (grid : Grid) (ball_type : bool)
          (dt : R),
      vlength direction = 1 ->
      grid_covers grid = true ->
      exists center' direction',
        fst (run_ball center direction grid ball_type dt)
          = Some (center', direction')
        /\ vlength direction' = 1)
  /\ vlength (dayball_direction (GameState_init (num := R))) = 1
  /\ vlength (nightball_direction (GameState_init (num := R))) = 1.
Proof.
  split; [| split; apply normalize_unit; cbn; lra].
  intros center direction grid ball_type dt Hd Hg.
  unfold run_ball, scan_grid.
  set (loc := match boundary_normal _ with Some _ => _ | None => _ end).
  assert (Hloc : vlength (snd loc) = 1).
  { subst loc.
    destruct (boundary_normal _) as [n |] eqn:Hn; cbn [snd]; [| exact Hd].
    rewrite reflect_keeps_length; [exact Hd |].
    eapply boundary_normal_unit. exact Hn. }
  destruct (scan_rows_returns center ball_type dt
              (seq 0 (Z.to_nat GRIDY)) loc grid) as [[c' d'] Hr].
  { apply grid_covers_spec. exact Hg. }
  { intros j Hj. apply in_seq in Hj. lia. }
  exists c', d'. split; [exact Hr |].
  apply (scan_rows_direction center ball_type dt
           (fun d => vlength d = 1)) with (3 := Hr); [| exact Hloc].
  intros d rect n HP Hn. rewrite reflect_keeps_length; [exact HP |].
  eapply resolver_normal_unit. exact Hn.
Qed.

End OnReals.

(** On binary64 the initial directions have length 1 up to one rounding. *)
Example initial_directions_unit_float :
  let state := GameState_init (num := float) in
  let eps : float := #1 / #4503599627370496 in
  (#1 - eps <? vlength (dayball_direction state)) = true
  /\ (vlength (dayball_direction state) <? #1 + eps) = true
  /\ (#1 - eps <? vlength (nightball_direction state)) = true
  /\ (vlength (nightball_direction state) <? #1 + eps) = true.
Proof. vm_compute. repeat split; reflexivity. Qed.

(** *** The directions the program carries, on binary64 *)

(** The component of the initial directions: 1 / sqrt 2, rounded. *)
Definition diag : float := vx (normalize (fvec 1 1)).

(** The four diagonal directions, which are those a ball can have. *)
Definition diagonal_directions : list (Vector2 float) :=
  [vec diag diag; vec diag (PrimFloat.opp diag);
   vec (PrimFloat.opp diag) diag;
   vec (PrimFloat.opp diag) (PrimFloat.opp diag)].

(** The normals that [run_ball] reflects across: those of the four
    boundaries and those of the resolver. *)
Definition axis_normals : list (Vector2 float) :=
  [fvec 1 0; fvec 0 (-1); fvec (-1) 0; fvec 0 1].

(** The rounding unit of binary64 at 1: 2 ^ -52. *)
Definition float_eps : float := #1 / #4503599627370496.

(** The length of [d] is 1 up to [float_eps]. *)
Definition unit_within_eps (d : Vector2 float) : Prop :=
  (#1 - float_eps <? vlength d) = true
  /\ (vlength d <? #1 + float_eps) = true.

Ltac pick_member :=
  vm_compute; repeat (first [left; reflexivity | right]).

Lemma reflect_diagonal (d n : Vector2 float) :
  In d diagonal_directions -> In n axis_normals ->
  In (reflect d n) diagonal_directions.
Proof.
  intros Hd Hn. simpl in Hd, Hn.
  destruct Hd as [<- | [<- | [<- | [<- | []]]]];
    destruct Hn as [<- | [<- | [<- | [<- | []]]]]; pick_member.
Qed.

Lemma boundary_normal_float (new_center n : Vector2 float) :
  boundary_normal new_center = Some n -> In n axis_normals.
Proof.
  unfold boundary_normal.
  destruct normalize_axis_float as (Hl & Ht & Hr & Hb).
  rewrite Hl, Ht, Hr, Hb.
  repeat match goal with
         | |- context [if ?b then _ else _] => destruct b
         end;
    intros [= <-]; pick_member.
Qed.

Lemma resolver_normal_float (center : Vector2 float) (radius : float)
  (rect : Rect) (n : Vector2 float) :
  ball_rect_collision center radius rect = Some n -> In n axis_normals.
Proof.
  intros Hn.
  destruct (collision_cases center radius rect) as [H | [H | H]];
    rewrite H in Hn; [discriminate | |]; injection Hn as <-; pick_member.
Qed.

Lemma run_ball_diagonal (center direction : Vector2 float) (grid : Grid)
  (ball_type : bool) (dt : float) :
  In direction diagonal_directions ->
  grid_covers grid = true ->
  exists center' direction',
    fst (run_ball center direction grid ball_type dt)
    = Some (center', direction')
    /\ In direction' diagonal_directions.
Proof.
  intros Hd Hg. unfold run_ball, scan_grid.
  set (loc := match boundary_normal _ with Some _ => _ | None => _ end).
  assert (Hloc : In (snd loc) diagonal_directions).
  { subst loc.
    destruct (boundary_normal _) as [n |] eqn:Hn; cbn [snd]; [| exact Hd].
    apply reflect_diagonal; [exact Hd |].
    eapply boundary_normal_float. exact Hn. }
  destruct (scan_rows_returns center ball_type dt
              (seq 0 (Z.to_nat GRIDY)) loc grid) as [[c' d'] Hr].
  { apply grid_covers_spec. exact Hg. }
  { intros j Hj. apply in_seq in Hj. lia. }
  exists c', d'. split; [exact Hr |].
  apply (scan_rows_direction center ball_type dt
           (fun d => In d diagonal_directions)) with (3 := Hr);
    [| exact Hloc].
  intros d rect n HP Hn. apply reflect_diagonal; [exact HP |].
  eapply resolver_normal_float. exact Hn.
Qed.

Lemma diagonal_unit (d : Vector2 float) :
  In d diagonal_directions -> unit_within_eps d.
Proof.
  intros Hd. simpl in Hd.
  destruct Hd as [<- | [<- | [<- | [<- | []]]]];
    split; vm_compute; reflexivity.
Qed.

(** C6. Each ball's direction is always of unit length.  On binary64, as
    the program runs: the two initial directions are diagonal directions
    (each component is 1 / sqrt 2 rounded, with a sign); for every centre,
    ball type and [dt] and every grid with all the cells of the window,
    [run_ball] given a diagonal direction returns, and returns a diagonal
    direction, whatever boundary and cell reflections took place; and every
    diagonal direction has length 1 up to the rounding unit 2 ^ -52.  So
    the length is 1 within that tolerance before and after every advance.
    On the reals, where nothing is rounded, [run_ball] given any direction
    of length exactly 1 returns one of length exactly 1, and the initial
    directions have length exactly 1. *)
Theorem direction_stays_unit :
  (In (dayball_direction (GameState_init (num := float)))
      diagonal_directions
   /\ In (nightball_direction (GameState_init (num := float)))
         diagonal_directions)
  /\ (forall (center direction : Vector2 float) (grid : Grid)
             (ball_type : bool) (dt : float),
        In direction diagonal_directions ->
        grid_covers grid = true ->
        exists center' direction',
          fst (run_ball center direction grid ball_type dt)
          = Some (center', direction')
          /\ In direction' diagonal_directions
          /\ unit_within_eps direction')
  /\ (forall d : Vector2 float,
        In d diagonal_directions -> unit_within_eps d)
  /\ ((forall (center direction : Vector2 R) (grid : Grid)
              (ball_type : bool) (dt : R),
         vlength direction = 1%R ->
         grid_covers grid = true ->
         exists center' direction',
           fst (run_ball center direction grid ball_type dt)
           = Some (center', direction')
           /\ vlength direction' = 1%R)
      /\ vlength (dayball_direction (GameState_init (num := R))) = 1%R
      /\ vlength (nightball_direction (GameState_init (num := R))) = 1%R).
Proof.
  split; [split; pick_member |].
  split; [| split; [exact diagonal_unit | exact unit_direction_on_reals]].
  intros center direction grid ball_type dt Hd Hg.
  destruct (run_ball_diagonal center direction grid ball_type dt Hd Hg)
    as (c' & d' & Hr & Hd').
  exists c', d'. split; [exact Hr |]. split; [exact Hd' |].
  apply diagonal_unit. exact Hd'.
Qed.

(** The day ball of the initial state, next to two day cells that it
    flips: its direction is reflected twice. *)
Lemma direction_stays_unit_witness :
  let direction := dayball_direction (GameState_init (num := float)) in
  let grid := init_grid (num := float) in
  In direction diagonal_directions
  /\ grid_covers grid = true
  /\ exists center' direction' : Vector2 float,
       fst (run_ball (fvec 130 125) direction grid true (#1 : float))
       = Some (center', direction')
       /\ In direction' diagonal_directions
       /\ unit_within_eps direction'.
Proof.
  cbv zeta.
  assert (Hd : In (dayball_direction (GameState_init (num := float)))
                  diagonal_directions) by pick_member.
  assert (Hg : grid_covers (init_grid (num := float)) = true)
    by (vm_compute; reflexivity).
  split; [exact Hd |]. split; [exact Hg |].
  exact (proj1 (proj2 direction_stays_unit) (fvec 130 125)
           (dayball_direction (GameState_init (num := float)))
           (init_grid (num := float)) true (#1 : float) Hd Hg).
Defined.

(** * Further properties of the engine *)

(** ** What a call of run_ball does to the grid *)

(** The rectangles of a grid, row by row. *)
Definition rects (g : Grid) : list (list Rect) :=
  (fun row : list (Rect * bool) => fst <$> row) <$> g.

Lemma set_cell_rects (g : Grid) (j i : nat) (rect : Rect) (ct ct' : bool) :
  cell_at g j i = Some (rect, ct) ->
  rects (set_cell g j i (rect, ct')) = rects g.
Proof.
  unfold cell_at, set_cell, rects. intros Hc. apply list_eq. intros k.
  rewrite !list_lookup_fmap.
  destruct (decide (j = k)) as [<- | Hne].
  - rewrite list_lookup_alter_eq.
    destruct (g !! j) as [row |]; [| discriminate]. simpl. f_equal.
    rewrite list_fmap_insert. apply list_insert_id.
    rewrite list_lookup_fmap, Hc. reflexivity.
  - rewrite list_lookup_alter_ne by exact Hne. reflexivity.
Qed.

Lemma rects_length (g g' : Grid) : rects g' = rects g -> length g' = length g.
Proof.
  intros H. apply (f_equal length) in H. unfold rects in H.
  rewrite !length_fmap in H. exact H.
Qed.

Section Frame.
Context {num : Type} {A : Arith num}.
Local Open Scope num_scope.
Variables (center : Vector2 num) (ball_type : bool) (dt : num).

(** The scan of a row leaves the grid alone or sets one cell of that row,
    among the columns it was given, to the opposite state. *)
Lemma scan_row_grid (j : nat) (cols : list nat) (loc : Locals) (g : Grid) :
  snd (scan_row center ball_type dt j cols loc g) = g
  \/ exists i rect,
       In i cols
       /\ cell_at g j i = Some (rect, ball_type)
       /\ snd (scan_row center ball_type dt j cols loc g)
          = set_cell g j i (rect, negb ball_type).
Proof.
  destruct (scan_row_first_hit center ball_type dt j cols loc g)
    as [H | (pre & i & post & rect & n & Hcols & Hc & _ & _ & Hres)];
    [left; exact H | right].
  exists i, rect. split; [| split; [exact Hc | rewrite Hres; reflexivity]].
  rewrite Hcols. apply in_or_app. right. left. reflexivity.
Qed.

Lemma scan_row_rects (j : nat) (cols : list nat) (loc : Locals) (g : Grid) :
  rects (snd (scan_row center ball_type dt j cols loc g)) = rects g.
Proof.
  destruct (scan_row_grid j cols loc g) as [-> | (i & rect & _ & Hc & ->)];
    [reflexivity |].
  eapply set_cell_rects. exact Hc.
Qed.

Lemma scan_rows_rects (rows : list nat) (loc : Locals) (g : Grid) :
  rects (snd (scan_rows center ball_type dt rows loc g)) = rects g.
Proof.
  revert loc g. induction rows as [| j rows IH]; intros loc g;
    [reflexivity |].
  rewrite scan_rows_cons.
  assert (Hrow := scan_row_rects j (seq 0 (Z.to_nat GRIDX)) loc g).
  destruct (scan_row center ball_type dt j (seq 0 (Z.to_nat GRIDX)) loc g)
    as [[loc' |] g']; simpl in Hrow; [| exact Hrow].
  rewrite IH. exact Hrow.
Qed.





(** A row that the grid lacks stops the scan. *)
Lemma scan_rows_missing_row (rows : list nat) (j : nat) (loc : Locals)
  (g : Grid) :
  In j rows -> (length g <= j)%nat ->
  fst (scan_rows center ball_type dt rows loc g) = None.
Proof.
  revert loc g. induction rows as [| j0 rows IH]; intros loc g Hin Hlen;
    [destruct Hin |].
  rewrite scan_rows_cons.
  assert (Hr := scan_row_rects j0 (seq 0 (Z.to_nat GRIDX)) loc g).
  destruct (scan_row center ball_type dt j0 (seq 0 (Z.to_nat GRIDX)) loc g)
    as [[loc' |] g1] eqn:E; [| reflexivity].
  simpl in Hr. apply rects_length in Hr.
  destruct Hin as [-> | Hin].
  - exfalso. revert E. change (seq 0 (Z.to_nat GRIDX)) with (0%nat :: seq 1 9).
    rewrite scan_row_cons. unfold cell_at.
    rewrite (lookup_ge_None_2 g j Hlen). discriminate.
  - apply (IH loc' g1 Hin). lia.
Qed.

Section LocalsInvariant.
(** A property of the locals that every hit keeps is kept by the scan. *)
Variable P : @Locals num -> Prop.
Hypothesis P_hit :
  forall (loc : @Locals num) rect n,
    P loc -> ball_rect_collision center BALLSIZE rect = Some n ->
    P (advance_point center (reflect (snd loc) n) BALLSPEED dt,
       reflect (snd loc) n).

Lemma scan_row_locals (j : nat) (cols : list nat) (loc loc' : Locals)
  (g : Grid) :
  P loc ->
  fst (scan_row center ball_type dt j cols loc g) = Some loc' ->
  P loc'.
Proof using P_hit.
  intros HP.
  destruct (scan_row_first_hit center ball_type dt j cols loc g)
    as [H | (pre & i & post & rect & n & _ & _ & Hn & _ & Hres)].
  - revert H. induction cols as [| i cols IH].
    + simpl. intros _ [= <-]. exact HP.
    + rewrite scan_row_cons.
      destruct (cell_at g j i) as [[rect cell_type] |]; [| discriminate].
      destruct (negb (eqb cell_type ball_type)); [exact IH |].
      destruct (ball_rect_collision center BALLSIZE rect) as [n |] eqn:Hn;
        [| exact IH].
      simpl. intros _ [= <-]. eapply P_hit; eassumption.
  - rewrite Hres. simpl. intros [= <-]. eapply P_hit; eassumption.
Qed.

Lemma scan_rows_locals (rows : list nat) (loc loc' : Locals) (g : Grid) :
  P loc ->
  fst (scan_rows center ball_type dt rows loc g) = Some loc' ->
  P loc'.
Proof using P_hit.
  revert loc g. induction rows as [| j rows IH]; intros loc g HP.
  - simpl. intros [= <-]. exact HP.
  - rewrite scan_rows_cons.
    destruct (scan_row center ball_type dt j (seq 0 (Z.to_nat GRIDX)) loc g)
      as [[loc1 |] g1] eqn:E; [| discriminate].
    apply IH. eapply scan_row_locals; [exact HP |]. rewrite E. reflexivity.
Qed.

End LocalsInvariant.

End Frame.

Lemma covers_grid_covers (g : Grid) : covers g -> grid_covers g = true.
Proof.
  unfold covers, grid_covers. intros H.
  apply forallb_forall. intros j Hj. apply in_seq in Hj.
  apply forallb_forall. intros i Hi. apply in_seq in Hi.
  apply bool_decide_eq_true. apply H; lia.
Qed.

Section AdvanceFrame.
Context {num : Type} {A : Arith num}.
Local Open Scope num_scope.
Implicit Types (center direction : Vector2 num) (grid : Grid) (dt : num).

Lemma run_ball_rects center direction grid (ball_type : bool) dt :
  rects (snd (run_ball center direction grid ball_type dt)) = rects grid.
Proof. apply scan_rows_rects. Qed.



(** X3. On a grid that has all the cells of the window, [run_ball] returns
    a centre and a direction (it raises nothing), and the grid it leaves
    still has all the cells of the window. *)
Theorem run_ball_returns center direction grid (ball_type : bool) dt :
  grid_covers grid = true ->
  (exists center' direction',
     fst (run_ball center direction grid ball_type dt)
     = Some (center', direction'))
  /\ grid_covers (snd (run_ball center direction grid ball_type dt)) = true.
Proof.
  intros Hg. apply grid_covers_spec in Hg. split.
  - unfold run_ball, scan_grid.
    destruct (scan_rows_returns center ball_type dt (seq 0 (Z.to_nat GRIDY))
                (match boundary_normal
                         (advance_point center direction BALLSPEED dt) with
                 | Some normal =>
                     (advance_point center (reflect direction normal)
                                    BALLSPEED dt, reflect direction normal)
                 | None =>
                     (advance_point center direction BALLSPEED dt, direction)
                 end) grid Hg) as [[c' d'] Hr].
    { intros j Hj. apply in_seq in Hj. lia. }
    exists c', d'. exact Hr.
  - apply covers_grid_covers.
    eapply flip_step_covers; [| exact Hg].
    apply scan_rows_flip_step.
Qed.

(** X4. On a grid with fewer than [GRIDY] rows every call of [run_ball]
    raises (the IndexError of line 151): it returns nothing. *)
Theorem run_ball_raises_on_short_grid center direction grid
  (ball_type : bool) dt :
  (length grid < Z.to_nat GRIDY)%nat ->
  fst (run_ball center direction grid ball_type dt) = None.
Proof.
  intros Hlen. unfold run_ball, scan_grid.
  apply (scan_rows_missing_row center ball_type dt _ (length grid)).
  - apply in_seq. lia.
  - lia.
Qed.

Lemma run_frame (state : GameState) (dt : Z) :
  let state' := snd (run state dt) in
  running state' = running state
  /\ paused state' = paused state
  /\ rects (grid state') = rects (grid state).
Proof.
  intros state'. subst state'. unfold run.
  destruct (paused state) eqn:Hp; [simpl; auto |].
  pose proof (run_ball_rects (dayball state) (dayball_direction state)
                (grid state) true #dt) as H1.
  destruct (run_ball (dayball state) (dayball_direction state) (grid state)
              true #dt) as [[[c d] |] g]; simpl in H1.
  - pose proof (run_ball_rects (nightball state) (nightball_direction state)
                  g false #dt) as H2.
    destruct (run_ball (nightball state) (nightball_direction state) g
                false #dt) as [[[c' d'] |] g']; simpl in H2; simpl;
      rewrite H2, H1; auto.
  - simpl. rewrite H1. auto.
Qed.

(** X5. [run] never changes the flags [running] and [paused], and never
    changes a rectangle or a dimension of the grid, whether the state is
    paused or not and whether a call of [run_ball] raises or not. *)
Theorem run_keeps_flags_and_rects (state : GameState) (dt : Z) :
  let state' := snd (run state dt) in
  running state' = running state
  /\ paused state' = paused state
  /\ rects (grid state') = rects (grid state).
Proof. exact (run_frame state dt). Qed.

End AdvanceFrame.


Lemma run_ball_returns_witness :
  grid_covers (init_grid (num := float)) = true
  /\ (exists center' direction' : Vector2 float,
        fst (run_ball (fvec 130 125) (normalize (fvec 1 1))
                      (init_grid (num := float)) true (#1 : float))
        = Some (center', direction'))
  /\ grid_covers (snd (run_ball (fvec 130 125) (normalize (fvec 1 1))
                                (init_grid (num := float)) true
                                (#1 : float))) = true.
Proof.
  split; [vm_compute; reflexivity |].
  apply (run_ball_returns (num := float) (fvec 130 125)
           (normalize (fvec 1 1)) (init_grid (num := float)) true
           (#1 : float)).
  vm_compute. reflexivity.
Defined.

(** A grid of nine rows. *)
Lemma run_ball_raises_on_short_grid_witness :
  (length (take 9 (init_grid (num := float))) < Z.to_nat GRIDY)%nat
  /\ fst (run_ball (fvec 130 125) (normalize (fvec 1 1))
                   (take 9 (init_grid (num := float))) true (#1 : float))
     = None.
Proof.
  assert (H : (length (take 9 (init_grid (num := float)))
               < Z.to_nat GRIDY)%nat) by (vm_compute; lia).
  split; [exact H |].
  exact (run_ball_raises_on_short_grid (num := float) (fvec 130 125)
           (normalize (fvec 1 1)) (take 9 (init_grid (num := float))) true
           (#1 : float) H).
Defined.

(** ** The resolver and the advance on the reals *)

(** The point [p] lies in the rectangle, borders included. *)
Definition in_rect (p : Vector2 R) (rect : Rect) : Prop :=
  (IZR (rect_left rect) <= vx p <= IZR (rect_right rect)
   /\ IZR (rect_top rect) <= vy p <= IZR (rect_bottom rect))%R.

Section RealGeometry.
Local Open Scope R_scope.
Implicit Types (center v n : Vector2 R) (radius : R) (rect : Rect).

Lemma Rltb_true (a b : R) : a < b -> Rltb a b = true.
Proof. intros H. unfold Rltb. destruct (Rlt_dec a b); [reflexivity | lra]. Qed.

Lemma Rltb_false (a b : R) : b <= a -> Rltb a b = false.
Proof. intros H. unfold Rltb. destruct (Rlt_dec a b); [lra | reflexivity]. Qed.

Lemma Rleb_true (a b : R) : a <= b -> Rleb a b = true.
Proof. intros H. unfold Rleb. destruct (Rle_dec a b); [reflexivity | lra]. Qed.

Lemma Rleb_false (a b : R) : b < a -> Rleb a b = false.
Proof. intros H. unfold Rleb. destruct (Rle_dec a b); [lra | reflexivity]. Qed.

Lemma rect_bounds rect :
  (0 <= rect_w rect)%Z -> (0 <= rect_h rect)%Z ->
  IZR (rect_left rect) <= IZR (rect_right rect)
  /\ IZR (rect_top rect) <= IZR (rect_bottom rect).
Proof.
  intros Hw Hh. split; apply IZR_le;
    unfold rect_left, rect_right, rect_top, rect_bottom; lia.
Qed.

Lemma collision_real_iff center radius rect :
  (exists n, ball_rect_collision center radius rect = Some n)
  <-> euclid center (nearest_point center rect) <= radius.
Proof.
  split.
  - intros [n Hn].
    destruct (Rlt_dec radius (euclid center (nearest_point center rect)))
      as [Hlt | Hge]; [exfalso | lra].
    assert (ball_rect_collision center radius rect = None) as E.
    { apply collision_none_iff. apply Rltb_true. exact Hlt. }
    congruence.
  - intros Hle. apply collision_some. apply Rltb_false. exact Hle.
Qed.

(** X6. On the reals, for a rectangle of non-negative width and height,
    the resolver reports a collision exactly when the closed disc of the
    given centre and radius meets the rectangle: some point of the
    rectangle is within the radius of the centre. *)
Theorem collision_iff_disc_meets_rect center radius rect :
  (0 <= rect_w rect)%Z -> (0 <= rect_h rect)%Z ->
  (exists n, ball_rect_collision center radius rect = Some n)
  <-> exists p, in_rect p rect /\ euclid center p <= radius.
Proof.
  intros Hw Hh. destruct (rect_bounds rect Hw Hh) as [Hlr Htb].
  pose (corner := vec (IZR (rect_left rect)) (IZR (rect_top rect))).
  assert (Hcx : IZR (rect_left rect) <= vx corner <= IZR (rect_right rect))
    by (simpl; lra).
  assert (Hcy : IZR (rect_top rect) <= vy corner <= IZR (rect_bottom rect))
    by (simpl; lra).
  rewrite collision_real_iff. split.
  - intros Hle. exists (nearest_point center rect). split; [| exact Hle].
    exact (proj1 (nearest_point_is_nearest center corner rect Hw Hh Hcx Hcy)).
  - intros (p & [Hpx Hpy] & Hle).
    pose proof (proj2 (nearest_point_is_nearest center p rect Hw Hh Hpx Hpy)).
    simpl in *. lra.
Qed.

(** Settles the comparisons of the goal that follow from the context. *)
Ltac decide_tests :=
  repeat match goal with
    | |- context [Rltb ?a ?b] =>
        first [rewrite (Rltb_true a b) by lra
              | rewrite (Rltb_false a b) by lra]
    | |- context [Rleb ?a ?b] =>
        first [rewrite (Rleb_true a b) by lra
              | rewrite (Rleb_false a b) by lra]
    end.

(** Replaces the square root of the goal by [x], whose square it is of. *)
Ltac sqrt_is x :=
  match goal with
  | |- context [sqrt ?e] =>
      replace (sqrt e) with x
        by (symmetry; replace e with (x * x) by ring;
            apply sqrt_square; lra)
  end.

Ltac unfold_resolver :=
  unfold ball_rect_collision, ynormal_of, xnormal_of, in_hspan, in_vspan,
    distance, test_point; cbn.

(** X7. On the reals, a centre that lies in the rectangle (borders
    included) collides with it for every radius that is not negative, and
    the normal is the fallback (1, 0): no face is selected. *)
Theorem collision_inside_is_fallback center radius rect :
  in_rect center rect -> 0 <= radius ->
  ball_rect_collision center radius rect = Some (vec 1 0).
Proof.
  intros [[Hx1 Hx2] [Hy1 Hy2]] Hr. unfold_resolver. decide_tests. cbn.
  sqrt_is 0. decide_tests. reflexivity.
Qed.

(** X8. On the reals, for a rectangle of non-negative width and height and
    a centre beside one face (beyond it on one axis, within the span on
    the other, at a distance from the face that is at most the radius),
    the resolver returns: (-1, 0) at the left face, (1, 0) at the right
    face, (1, 0) at the top face and (-1, 0) at the bottom face. *)
Theorem collision_face_normals center radius rect :
  (0 <= rect_w rect)%Z -> (0 <= rect_h rect)%Z ->
  (IZR (rect_top rect) <= vy center <= IZR (rect_bottom rect) ->
   (vx center < IZR (rect_left rect) ->
    IZR (rect_left rect) - vx center <= radius ->
    ball_rect_collision center radius rect = Some (vec (-1) 0))
   /\ (IZR (rect_right rect) < vx center ->
       vx center - IZR (rect_right rect) <= radius ->
       ball_rect_collision center radius rect = Some (vec 1 0)))
  /\ (IZR (rect_left rect) <= vx center <= IZR (rect_right rect) ->
      (vy center < IZR (rect_top rect) ->
       IZR (rect_top rect) - vy center <= radius ->
       ball_rect_collision center radius rect = Some (vec 1 0))
      /\ (IZR (rect_bottom rect) < vy center ->
          vy center - IZR (rect_bottom rect) <= radius ->
          ball_rect_collision center radius rect = Some (vec (-1) 0))).
Proof.
  intros Hw Hh. destruct (rect_bounds rect Hw Hh) as [Hlr Htb].
  split; intros Hspan; split; intros Hout Hd; unfold_resolver;
    decide_tests; cbn.
  - sqrt_is (IZR (rect_left rect) - vx center). decide_tests. reflexivity.
  - sqrt_is (vx center - IZR (rect_right rect)). decide_tests. reflexivity.
  - sqrt_is (IZR (rect_top rect) - vy center). decide_tests. reflexivity.
  - sqrt_is (vy center - IZR (rect_bottom rect)). decide_tests. reflexivity.
Qed.

End RealGeometry.

Section RealAdvance.
Local Open Scope R_scope.
Implicit Types (center direction v n : Vector2 R) (grid : Grid) (dt : R).

Lemma reflect_x_axis v n :
  n = vec 1 0 \/ n = vec (-1) 0 -> reflect v n = vec (- vx v) (vy v).
Proof.
  intros [-> | ->]; unfold reflect; rewrite dot_real; cbn; f_equal; ring.
Qed.

Lemma reflect_y_axis v n :
  n = vec 0 1 \/ n = vec 0 (-1) -> reflect v n = vec (vx v) (- vy v).
Proof.
  intros [-> | ->]; unfold reflect; rewrite dot_real; cbn; f_equal; ring.
Qed.

Lemma normalize_axis_real (x y : R) :
  x * x + y * y = 1 -> normalize (vec x y) = vec x y.
Proof.
  intros H. unfold normalize, vdiv. rewrite vlength_real. cbn.
  rewrite H, sqrt_1. f_equal; field.
Qed.

Lemma boundary_normal_axis (new_center : Vector2 R) n :
  boundary_normal new_center = Some n ->
  (n = vec 1 0 \/ n = vec (-1) 0) \/ (n = vec 0 1 \/ n = vec 0 (-1)).
Proof.
  unfold boundary_normal.
  repeat match goal with
         | |- context [if ?b then _ else _] => destruct b
         end;
    intros [= <-]; cbn; rewrite normalize_axis_real by ring; tauto.
Qed.

(** X9. On the reals and on a grid with all the cells of the window,
    [run_ball] returns a direction whose components are those of the
    direction it was given up to sign.  The y component changes sign only
    when a boundary test fired with a normal on the y axis (the top or the
    bottom edge): no collision with a cell ever changes it. *)
Theorem run_ball_direction_signs center direction grid (ball_type : bool)
  dt :
  grid_covers grid = true ->
  exists center' direction',
    fst (run_ball center direction grid ball_type dt)
    = Some (center', direction')
    /\ (vx direction' = vx direction \/ vx direction' = - vx direction)
    /\ (vy direction' = vy direction
        \/ (vy direction' = - vy direction
            /\ exists n,
                 boundary_normal
                   (advance_point center direction BALLSPEED dt) = Some n
                 /\ vx n = 0)).
Proof.
  intros Hg. unfold run_ball, scan_grid.
  set (loc := match boundary_normal _ with Some _ => _ | None => _ end).
  destruct (scan_rows_returns center ball_type dt
              (seq 0 (Z.to_nat GRIDY)) loc grid) as [[c' d'] Hr].
  { apply grid_covers_spec. exact Hg. }
  { intros j Hj. apply in_seq in Hj. lia. }
  exists c', d'. split; [exact Hr |].
  assert (Hscan : (vx d' = vx (snd loc) \/ vx d' = - vx (snd loc))
                  /\ vy d' = vy (snd loc)).
  { apply (scan_rows_direction center ball_type dt
             (fun d => (vx d = vx (snd loc) \/ vx d = - vx (snd loc))
                       /\ vy d = vy (snd loc)))
      with (3 := Hr); [| split; [left |]; reflexivity].
    intros d rect n [Hx Hy] Hn.
    rewrite (reflect_x_axis d n).
    - simpl. split; [lra | exact Hy].
    - destruct (collision_cases center BALLSIZE rect) as [H | [H | H]];
        rewrite H in Hn; [discriminate | |]; injection Hn as <-; tauto. }
  destruct Hscan as [Hx Hy]. subst loc.
  destruct (boundary_normal _) as [n |] eqn:Hn;
    [| simpl in Hx, Hy; tauto].
  destruct (boundary_normal_axis _ n Hn) as [Hax | Hax]; cbn [snd] in Hx, Hy.
  - rewrite (reflect_x_axis direction n Hax) in Hx, Hy. simpl in Hx, Hy.
    split; [lra | left; exact Hy].
  - rewrite (reflect_y_axis direction n Hax) in Hx, Hy. simpl in Hx, Hy.
    split; [exact Hx | right]. split; [exact Hy |].
    exists n. split; [reflexivity |]. destruct Hax as [-> | ->]; reflexivity.
Qed.

Lemma advance_distance center v (speed dt : R) :
  vlength v = 1 ->
  euclid center (advance_point center v speed dt) = Rabs (speed * dt).
Proof.
  intros Hv. rewrite vlength_real in Hv. apply sqrt_eq_1 in Hv.
  unfold euclid. rewrite vlength_real. cbn.
  rewrite <- sqrt_Rsqr_abs. f_equal. unfold Rsqr.
  replace ((vx center - (vx center + vx v * speed * dt)) *
           (vx center - (vx center + vx v * speed * dt)) +
           (vy center - (vy center + vy v * speed * dt)) *
           (vy center - (vy center + vy v * speed * dt)))
    with ((vx v * vx v + vy v * vy v) * (speed * dt * (speed * dt)))
    by ring.
  rewrite Hv. ring.
Qed.

(** X10. On the reals, on a grid with all the cells of the window and for
    a direction of length 1, the centre that [run_ball] returns is at
    distance exactly [BALLSPEED * |dt|] from the centre it was given,
    whatever boundaries and cells the ball met: every reflection restarts
    the step from the centre before the step.  In particular a call with
    [dt = 0] returns the centre it was given. *)
Theorem run_ball_step_length center direction grid (ball_type : bool) dt :
  vlength direction = 1 ->
  grid_covers grid = true ->
  exists center' direction',
    fst (run_ball center direction grid ball_type dt)
    = Some (center', direction')
    /\ euclid center center' = BALLSPEED * Rabs dt
    /\ (dt = 0 -> center' = center).
Proof.
  intros Hd Hg. unfold run_ball, scan_grid.
  set (loc := match boundary_normal _ with Some _ => _ | None => _ end).
  destruct (scan_rows_returns center ball_type dt
              (seq 0 (Z.to_nat GRIDY)) loc grid) as [[c' d'] Hr].
  { apply grid_covers_spec. exact Hg. }
  { intros j Hj. apply in_seq in Hj. lia. }
  exists c', d'. split; [exact Hr |].
  assert (Hinv : c' = advance_point center d' BALLSPEED dt
                 /\ vlength d' = 1).
  { apply (scan_rows_locals center ball_type dt
             (fun l => fst l = advance_point center (snd l) BALLSPEED dt
                       /\ vlength (snd l) = 1))
      with (3 := Hr).
    - intros l rect n [_ Hl] Hn. cbn [fst snd]. split; [reflexivity |].
      rewrite reflect_keeps_length; [exact Hl |].
      eapply resolver_normal_unit. exact Hn.
    - subst loc. destruct (boundary_normal _) as [n |] eqn:Hn; cbn [fst snd];
        (split; [reflexivity |]); [| exact Hd].
      rewrite reflect_keeps_length; [exact Hd |].
      eapply boundary_normal_unit. exact Hn. }
  destruct Hinv as [-> Hlen]. split.
  - rewrite (advance_distance center d' BALLSPEED dt Hlen).
    rewrite Rabs_mult. f_equal. apply Rabs_right. cbn. lra.
  - intros ->. unfold advance_point, vadd, vscale. cbn.
    destruct center as [cx cy]. cbn. f_equal; ring.
Qed.

End RealAdvance.

Section RealWitnesses.
Local Open Scope R_scope.

Lemma collision_iff_disc_meets_rect_witness :
  (0 <= rect_w (mkRect 0 0 25 25))%Z
  /\ (0 <= rect_h (mkRect 0 0 25 25))%Z
  /\ ((exists n : Vector2 R,
         ball_rect_collision (vec 31 33) 10 (mkRect 0 0 25 25) = Some n)
      <-> exists p : Vector2 R,
            in_rect p (mkRect 0 0 25 25) /\ euclid (vec 31 33) p <= 10).
Proof.
  assert (Hw : (0 <= rect_w (mkRect 0 0 25 25))%Z) by (simpl; lia).
  assert (Hh : (0 <= rect_h (mkRect 0 0 25 25))%Z) by (simpl; lia).
  split; [exact Hw |]. split; [exact Hh |].
  exact (collision_iff_disc_meets_rect (vec 31 33) 10 (mkRect 0 0 25 25)
           Hw Hh).
Defined.

Lemma collision_inside_is_fallback_witness :
  in_rect (vec 5 5) (mkRect 0 0 25 25)
  /\ 0 <= 10
  /\ ball_rect_collision (vec 5 5 : Vector2 R) 10 (mkRect 0 0 25 25)
     = Some (vec 1 0).
Proof.
  assert (Hin : in_rect (vec 5 5) (mkRect 0 0 25 25))
    by (unfold in_rect, rect_left, rect_right, rect_top, rect_bottom;
        cbn [rect_x rect_y rect_w rect_h vx vy]; rewrite ?plus_IZR; lra).
  assert (Hr : 0 <= 10) by lra.
  split; [exact Hin |]. split; [exact Hr |].
  exact (collision_inside_is_fallback (vec 5 5) 10 (mkRect 0 0 25 25) Hin Hr).
Defined.

(** A centre three units to the left of the left face. *)
Lemma collision_face_normals_witness :
  (0 <= rect_w (mkRect 0 0 25 25))%Z
  /\ (0 <= rect_h (mkRect 0 0 25 25))%Z
  /\ ball_rect_collision (vec (-3) 5 : Vector2 R) 10 (mkRect 0 0 25 25)
     = Some (vec (-1) 0).
Proof.
  assert (Hw : (0 <= rect_w (mkRect 0 0 25 25))%Z) by (simpl; lia).
  assert (Hh : (0 <= rect_h (mkRect 0 0 25 25))%Z) by (simpl; lia).
  split; [exact Hw |]. split; [exact Hh |].
  apply (proj1 (collision_face_normals (vec (-3) 5) 10 (mkRect 0 0 25 25)
                  Hw Hh));
    unfold rect_left, rect_right, rect_top, rect_bottom;
    cbn [rect_x rect_y rect_w rect_h vx vy]; rewrite ?plus_IZR; lra.
Defined.

Lemma unit_x_length : vlength (vec 1 0 : Vector2 R) = 1.
Proof.
  rewrite vlength_real. cbn.
  replace (1 * 1 + 0 * 0) with 1 by ring. apply sqrt_1.
Qed.

Lemma run_ball_direction_signs_witness :
  grid_covers (init_grid (num := float)) = true
  /\ exists center' direction' : Vector2 R,
       fst (run_ball (vec 20 20) (vec 1 0) (init_grid (num := float)) true 1)
       = Some (center', direction')
       /\ (vx direction' = 1 \/ vx direction' = - 1)
       /\ (vy direction' = 0
           \/ (vy direction' = - 0
               /\ exists n : Vector2 R,
                    boundary_normal
                      (advance_point (vec 20 20) (vec 1 0) BALLSPEED 1)
                    = Some n
                    /\ vx n = 0)).
Proof.
  split; [vm_compute; reflexivity |].
  apply (run_ball_direction_signs (vec 20 20) (vec 1 0)
           (init_grid (num := float)) true 1).
  vm_compute. reflexivity.
Defined.

Lemma run_ball_step_length_witness :
  vlength (vec 1 0 : Vector2 R) = 1
  /\ grid_covers (init_grid (num := float)) = true
  /\ exists center' direction' : Vector2 R,
       fst (run_ball (vec 20 20) (vec 1 0) (init_grid (num := float)) true 1)
       = Some (center', direction')
       /\ euclid (vec 20 20) center' = BALLSPEED * Rabs 1
       /\ (1 = 0 -> center' = vec 20 20).
Proof.
  split; [exact unit_x_length |]. split; [vm_compute; reflexivity |].
  apply (run_ball_step_length (vec 20 20) (vec 1 0)
           (init_grid (num := float)) true 1 unit_x_length).
  vm_compute. reflexivity.
Defined.

End RealWitnesses.

(** ** Events and the main loop *)

(** Modelled from the spec: a pygame event, of which the source reads the
    type and, for a key press, the key. *)
Record Event := mkEvent { event_type : Z; event_key : Z }.

(** Modelled from the spec: pygame's constants [QUIT], [KEYDOWN] and
    [K_SPACE], with their values in pygame 2. *)
Definition pygame_QUIT : Z := 256.
Definition pygame_KEYDOWN : Z := 768.
Definition pygame_K_SPACE : Z := 32.

Definition FRAMERATE : Z := 60.

(** The event is a request to quit (line 45). *)
Definition is_quit (event : Event) : bool :=
  (event_type event =? pygame_QUIT)%Z.

(** The event is a press of the space key that line 47 gets to see. *)
Definition is_space_press (event : Event) : bool :=
  negb (event_type event =? pygame_QUIT)%Z
  && (event_type event =? pygame_KEYDOWN)%Z
  && (event_key event =? pygame_K_SPACE)%Z.

(** How the loop of [main] ended: [main] returned 0, the script of frames
    ran out while the loop was still running, or an exception left it. *)
Inductive Outcome := Exited | Pending | Raised.

Section Loop.
Context {num : Type} {A : Arith num}.
Local Open Scope num_scope.
Implicit Types (state : GameState (num := num)).

(** The body of the loop of [process_events] (lines 45-49). *)
Definition handle_event state (event : Event) : GameState :=
  if (event_type event =? pygame_QUIT)%Z then request_quit state
  else if (event_type event =? pygame_KEYDOWN)%Z then
    if (event_key event =? pygame_K_SPACE)%Z then toggle_pause state
    else state
  else state.

(** [process_events] (lines 43-49); [events] is the list that
    [pygame.event.get()] returned. *)
Definition process_events state (events : list Event) : GameState :=
  fold_left handle_event events state.

(** [draw] (lines 52-68) reads every cell of the window and both balls and
    writes nothing to the state.  What it paints is not modelled: the
    value is [None] when reading [state.grid[j][i]] raises. *)
Definition draw state : option unit :=
  if grid_covers (grid state) then Some tt else None.

(** The loop of [main] (lines 182-187), run on a script of frames: for each
    iteration the events polled and the milliseconds [clock.tick]
    returned. *)
Fixpoint main_loop (script : list (list Event * Z)) state (dt : Z)
  : Outcome * GameState :=
  if running state then
    match script with
    | [] => (Pending, state)
    | (events, tick) :: script' =>
        let state := process_events state events in
        match run state dt with
        | (false, state) => (Raised, state)
        | (true, state) =>
            match draw state with
            | None => (Raised, state)
            | Some _ => main_loop script' state tick
            end
        end
    end
  else (Exited, state).

(** [main] (lines 175-190). *)
Definition main (script : list (list Event * Z)) : Outcome * GameState :=
  let state := GameState_init in
  let dt := (1 / FRAMERATE * 1000)%Z in
  main_loop script state dt.

End Loop.

(** No frame of the script holds a press of the space key. *)
Definition no_space_press (script : list (list Event * Z)) : bool :=
  forallb (fun frame : list Event * Z =>
             forallb (fun e => negb (is_space_press e)) (fst frame))
          script.

Section LoopProperties.
Context {num : Type} {A : Arith num}.
Local Open Scope num_scope.
Implicit Types (state : GameState (num := num)).

Lemma handle_event_spec state (event : Event) :
  let state' := handle_event state event in
  running state' = running state && negb (is_quit event)
  /\ paused state' = xorb (paused state) (is_space_press event)
  /\ grid state' = grid state
  /\ dayball state' = dayball state
  /\ nightball state' = nightball state
  /\ dayball_direction state' = dayball_direction state
  /\ nightball_direction state' = nightball_direction state.
Proof.
  unfold handle_event, is_quit, is_space_press.
  destruct (event_type event =? pygame_QUIT)%Z; simpl.
  - rewrite andb_false_r, xorb_false_r. auto 10.
  - rewrite andb_true_r.
    destruct (event_type event =? pygame_KEYDOWN)%Z; simpl;
      [| rewrite xorb_false_r; auto 10].
    destruct (event_key event =? pygame_K_SPACE)%Z; simpl;
      [| rewrite xorb_false_r; auto 10].
    rewrite xorb_true_r. auto 10.
Qed.

Lemma process_events_spec state (events : list Event) :
  let state' := process_events state events in
  running state' = running state && negb (existsb is_quit events)
  /\ paused state'
     = xorb (paused state)
            (Nat.odd (length (List.filter is_space_press events)))
  /\ grid state' = grid state
  /\ dayball state' = dayball state
  /\ nightball state' = nightball state
  /\ dayball_direction state' = dayball_direction state
  /\ nightball_direction state' = nightball_direction state.
Proof.
  unfold process_events. revert state.
  induction events as [| e events IH]; intros state.
  - simpl. rewrite andb_true_r, xorb_false_r. auto 10.
  - cbn [fold_left existsb List.filter].
    destruct (IH (handle_event state e)) as (Hr & Hp & Hg & H1 & H2 & H3 & H4).
    destruct (handle_event_spec state e)
      as (Hr' & Hp' & Hg' & H1' & H2' & H3' & H4').
    cbv zeta in *.
    rewrite Hr, Hp, Hg, H1, H2, H3, H4, Hr', Hp', Hg', H1', H2', H3', H4'.
    repeat split.
    + rewrite negb_orb, andb_assoc. reflexivity.
    + destruct (is_space_press e); cbn [length];
        [| rewrite xorb_false_r; reflexivity].
      rewrite Nat.odd_succ, <- Nat.negb_odd.
      destruct (paused state), (Nat.odd _); reflexivity.
Qed.

(** X11. [process_events] changes nothing but the two flags.  [running]
    stays as it was unless one of the events is a QUIT, which clears it,
    so the events never set it again; [paused] is flipped once for every
    press of the space key, so it ends as it was exactly when their number
    is even. *)
Theorem process_events_effect state (events : list Event) :
  let state' := process_events state events in
  running state' = running state && negb (existsb is_quit events)
  /\ paused state'
     = xorb (paused state)
            (Nat.odd (length (List.filter is_space_press events)))
  /\ grid state' = grid state
  /\ dayball state' = dayball state
  /\ nightball state' = nightball state
  /\ dayball_direction state' = dayball_direction state
  /\ nightball_direction state' = nightball_direction state.
Proof. exact (process_events_spec state events). Qed.

End LoopProperties.

Section MainLoop.
Context {num : Type} {A : Arith num}.
Local Open Scope num_scope.
Implicit Types (state : GameState (num := num)).

Lemma run_ball_covers (center direction : Vector2 num) (g : Grid)
  (ball_type : bool) (dt : num) :
  covers g ->
  exists c d g',
    run_ball center direction g ball_type dt = (Some (c, d), g')
    /\ covers g'.
Proof.
  intros Hg.
  pose proof (scan_rows_flip_step center ball_type dt
                (seq 0 (Z.to_nat GRIDY))) as Hstep.
  unfold run_ball, scan_grid.
  set (loc := match boundary_normal _ with Some _ => _ | None => _ end).
  destruct (scan_rows_returns center ball_type dt
              (seq 0 (Z.to_nat GRIDY)) loc g Hg) as [[c d] Hr].
  { intros j Hj. apply in_seq in Hj. lia. }
  specialize (Hstep loc g).
  destruct (scan_rows center ball_type dt (seq 0 (Z.to_nat GRIDY)) loc g)
    as [r g']. simpl in Hr, Hstep. subst r.
  exists c, d, g'. split; [reflexivity |].
  eapply flip_step_covers; eassumption.
Qed.

Lemma run_ok state (dt : Z) :
  covers (grid state) ->
  fst (run state dt) = true /\ covers (grid (snd (run state dt))).
Proof.
  intros Hg. unfold run.
  destruct (paused state); [split; [reflexivity | exact Hg] |].
  destruct (run_ball_covers (dayball state) (dayball_direction state)
              (grid state) true #dt Hg) as (c & d & g & -> & Hg1).
  destruct (run_ball_covers (nightball state) (nightball_direction state)
              g false #dt Hg1) as (c' & d' & g' & -> & Hg2).
  split; [reflexivity | exact Hg2].
Qed.


Lemma main_loop_cons (events : list Event) (tick : Z)
  (script : list (list Event * Z)) state (dt : Z) :
  main_loop ((events, tick) :: script) state dt =
  if running state then
    match run (process_events state events) dt with
    | (false, state') => (Raised, state')
    | (true, state') =>
        match draw state' with
        | None => (Raised, state')
        | Some _ => main_loop script state' tick
        end
    end
  else (Exited, state).
Proof. reflexivity. Qed.

Lemma main_loop_safe (script : list (list Event * Z)) state (dt : Z) :
  covers (grid state) ->
  (fst (main_loop script state dt) = Exited
   \/ fst (main_loop script state dt) = Pending)
  /\ rects (grid (snd (main_loop script state dt))) = rects (grid state)
  /\ covers (grid (snd (main_loop script state dt))).
Proof.
  revert state dt. induction script as [| [events tick] script IH];
    intros state dt Hg.
  - simpl. destruct (running state); simpl; auto.
  - rewrite main_loop_cons. destruct (running state); [| simpl; auto].
    destruct (process_events_spec state events) as (_ & _ & Hgrid & _).
    cbv zeta in Hgrid.
    assert (Hg1 : covers (grid (process_events state events)))
      by (rewrite Hgrid; exact Hg).
    destruct (run_ok _ dt Hg1) as [Hok Hg2].
    pose proof (run_frame (process_events state events) dt) as (_ & _ & Hr).
    cbv zeta in Hr.
    destruct (run (process_events state events) dt) as [ok state2].
    simpl in Hok, Hg2, Hr. subst ok.
    unfold draw. rewrite (covers_grid_covers _ Hg2).
    destruct (IH state2 tick Hg2) as (Ho & Hr2 & Hc2).
    split; [exact Ho |]. split; [| exact Hc2].
    rewrite Hr2, Hr, Hgrid. reflexivity.
Qed.

Lemma filter_none {T} (f : T -> bool) (l : list T) :
  forallb (fun x => negb (f x)) l = true -> List.filter f l = [].
Proof.
  induction l as [| x l IH]; [reflexivity |].
  simpl. intros H. apply andb_true_iff in H. destruct H as [Hx Hl].
  destruct (f x); [discriminate | exact (IH Hl)].
Qed.

Lemma main_loop_frozen (script : list (list Event * Z)) state (dt : Z) :
  paused state = true ->
  covers (grid state) ->
  no_space_press script = true ->
  let state' := snd (main_loop script state dt) in
  paused state' = true
  /\ grid state' = grid state
  /\ dayball state' = dayball state
  /\ nightball state' = nightball state
  /\ dayball_direction state' = dayball_direction state
  /\ nightball_direction state' = nightball_direction state.
Proof.
  revert state dt. induction script as [| [events tick] script IH];
    intros state dt Hp Hg Hns.
  - simpl. destruct (running state); simpl; auto 10.
  - rewrite main_loop_cons. destruct (running state); [| simpl; auto 10].
    simpl in Hns. apply andb_true_iff in Hns. destruct Hns as [Hev Hns].
    destruct (process_events_spec state events)
      as (_ & Hp1 & Hg1 & H1 & H2 & H3 & H4).
    cbv zeta in *. rewrite (filter_none _ _ Hev), Hp in Hp1. simpl in Hp1.
    unfold run. rewrite Hp1. unfold draw.
    rewrite Hg1, (covers_grid_covers _ Hg).
    assert (Hg' : covers (grid (process_events state events)))
      by (rewrite Hg1; exact Hg).
    destruct (IH (process_events state events) tick Hp1 Hg' Hns)
      as (Hp' & Hgr & K1 & K2 & K3 & K4).
    rewrite Hp', Hgr, K1, K2, K3, K4. auto 10.
Qed.


End MainLoop.

(** *** The game from its initial state, on binary64 *)

(** X12. Whatever events arrive and whatever the clock returns, the loop
    of [main] never leaves by an exception: on every script of frames it
    has returned or is still running, and the grid of its state has all
    the cells of the window and the rectangles that [GameState] gave it. *)
Theorem main_never_raises (script : list (list Event * Z)) :
  let r := main (num := float) script in
  (fst r = Exited \/ fst r = Pending)
  /\ rects (grid (snd r)) = rects (init_grid (num := float))
  /\ grid_covers (grid (snd r)) = true.
Proof.
  intros r. subst r. unfold main.
  assert (Hg : covers (grid (GameState_init (num := float))))
    by (apply grid_covers_spec; vm_compute; reflexivity).
  destruct (main_loop_safe script (GameState_init (num := float))
              (1 / FRAMERATE * 1000) Hg) as (Ho & Hr & Hc).
  split; [exact Ho |]. split; [exact Hr |].
  apply covers_grid_covers. exact Hc.
Qed.

(** X13. The game starts paused and stays frozen until the space key is
    pressed: on a script without a press of the space key, [main] leaves
    the grid, both centres and both directions as [GameState] made them,
    and the state is still paused. *)
Theorem main_frozen_until_space (script : list (list Event * Z)) :
  no_space_press script = true ->
  let init := GameState_init (num := float) in
  let state := snd (main (num := float) script) in
  paused state = true
  /\ grid state = grid init
  /\ dayball state = dayball init
  /\ nightball state = nightball init
  /\ dayball_direction state = dayball_direction init
  /\ nightball_direction state = nightball_direction init.
Proof.
  intros Hns init state. subst init state. unfold main.
  apply main_loop_frozen; [reflexivity | | exact Hns].
  apply grid_covers_spec. vm_compute. reflexivity.
Qed.

(** A key that is not the space key, then a frame with a QUIT event. *)
Lemma main_frozen_until_space_witness :
  let script :=
    [([mkEvent pygame_KEYDOWN 97], 16%Z); ([mkEvent pygame_QUIT 0], 17%Z)] in
  let init := GameState_init (num := float) in
  let state := snd (main (num := float) script) in
  no_space_press script = true
  /\ paused state = true
  /\ grid state = grid init
  /\ dayball state = dayball init
  /\ nightball state = nightball init
  /\ dayball_direction state = dayball_direction init
  /\ nightball_direction state = nightball_direction init.
Proof.
  split; [reflexivity |].
  apply (main_frozen_until_space
           [([mkEvent pygame_KEYDOWN 97], 16%Z);
            ([mkEvent pygame_QUIT 0], 17%Z)]).
  reflexivity.
Defined.


(** ** Which cell of a row is flipped *)


Section FirstHit.
Context {num : Type} {A : Arith num}.
Local Open Scope num_scope.
Variables (center : Vector2 num) (ball_type : bool) (dt : num).






End FirstHit.

